(** * Film catalog: search, sort/filter pipeline, URL normalisation, upload validation

    A shallow embedding of the logic of the three scripts of the repository:

    - the catalog page ([VideoCatalog]: [loadVideos], [refreshVideos],
      [performSearch], [applySortAndFilter]),
    - the upload page ([VideoUploader]: [validateDriveUrl], [validateForm],
      [convertToEmbedUrl], the URL predicates and the id extractors),
    - the playback page ([VideoPlayer]: [isDirectVideoUrl],
      [convertGoogleDriveUrl], [renderVideoPlayer]),
    - and, of the catalog and upload pages, the folders, the search
      suggestions, the thumbnail fallbacks, the dates on the cards, the
      field checks and the page as a state machine of its events.

    Strings are sequences of code units; the development works with the code
    units 0..255 (Rocq's [string]), on which [toLowerCase], [trim] and
    [includes] are given exactly (the string literals of this file are
    ASCII, one character per code unit).  The built-ins whose result depends on the
    browser ([localeCompare], [Date] parsing, [URL] parsing) are operations of
    a host class. *)

From Stdlib Require Import List String Ascii ZArith Lia Bool Permutation Sorted.
From Stdlib Require Import Relations RelationClasses DecimalString.
Import ListNotations.

Local Open Scope string_scope.
Local Open Scope Z_scope.

(* ================================================================== *)
(** * The JavaScript primitives used by the scripts *)
(* ================================================================== *)

Module JS.

(** ** Code units *)

Definition code (c : ascii) : N := N_of_ascii c.

Definition inRange (lo hi : N) (c : ascii) : bool :=
  (N.leb lo (code c) && N.leb (code c) hi)%bool.

(** [String.prototype.toLowerCase] on one code unit below 256: the ASCII
    capitals and the Latin-1 capitals U+00C0..U+00DE (but not the sign
    U+00D7) move 32 places up, everything else stays. *)
Definition lowerChar (c : ascii) : ascii :=
  if (inRange 65 90 c || inRange 192 214 c || inRange 216 222 c)%bool
  then ascii_of_N (code c + 32)
  else c.

Fixpoint toLowerCase (s : string) : string :=
  match s with
  | EmptyString => EmptyString
  | String c s' => String (lowerChar c) (toLowerCase s')
  end.

(** White space and line terminators below 256, as [trim] strips them:
    TAB, LF, VT, FF, CR, SPACE and NBSP. *)
Definition isWhiteSpace (c : ascii) : bool :=
  (inRange 9 13 c || N.eqb (code c) 32 || N.eqb (code c) 160)%bool.

Definition isEmpty (s : string) : bool :=
  match s with EmptyString => true | String _ _ => false end.

(** A string is truthy when it is not empty. *)
Definition truthy (s : string) : bool := negb (isEmpty s).

Fixpoint trimStart (s : string) : string :=
  match s with
  | EmptyString => EmptyString
  | String c s' => if isWhiteSpace c then trimStart s' else s
  end.

Fixpoint trimEnd (s : string) : string :=
  match s with
  | EmptyString => EmptyString
  | String c s' =>
      let r := trimEnd s' in
      if (isWhiteSpace c && isEmpty r)%bool then EmptyString else String c r
  end.

Definition trim (s : string) : string := trimEnd (trimStart s).


(** ** Searching in strings *)

(** [startsWith s p]: [p] is a prefix of [s]. *)
Fixpoint startsWith (s p : string) : bool :=
  match p, s with
  | EmptyString, _ => true
  | String _ _, EmptyString => false
  | String b p', String a s' => (Ascii.eqb a b && startsWith s' p')%bool
  end.

(** [s.includes(sub)]: [sub] occurs in [s] at some position. *)
Fixpoint includes (s sub : string) : bool :=
  (startsWith s sub ||
   match s with
   | EmptyString => false
   | String _ s' => includes s' sub
   end)%bool.

(** [arr.some(ext => s.includes(ext))]. *)
Definition includesAny (s : string) (subs : list string) : bool :=
  existsb (fun sub => includes s sub) subs.

(** [stripPrefix p s]: what follows [p] when [s] starts with [p]. *)
Fixpoint stripPrefix (p s : string) : option string :=
  match p, s with
  | EmptyString, _ => Some s
  | String _ _, EmptyString => None
  | String b p', String a s' =>
      if Ascii.eqb a b then stripPrefix p' s' else None
  end.

Fixpoint takeWhile (f : ascii -> bool) (s : string) : string :=
  match s with
  | EmptyString => EmptyString
  | String c s' => if f c then String c (takeWhile f s') else EmptyString
  end.

(** ** The regular expressions of the scripts

    A pattern is given by what it does at one position: [at_ r] is the
    capture when the pattern matches at the start of [r]. *)

(** [[a-zA-Z0-9_-]] *)
Definition isIdChar (c : ascii) : bool :=
  (inRange 97 122 c || inRange 65 90 c || inRange 48 57 c ||
   N.eqb (code c) 95 || N.eqb (code c) 45)%bool.

(** The line terminators below 256, which [.] does not match: LF and CR. *)
Definition isLineTerminator (c : ascii) : bool :=
  (N.eqb (code c) 10 || N.eqb (code c) 13)%bool.

(** [([a-zA-Z0-9_-]+)] at the start of [r]: the longest run, one character
    at least. *)
Definition idRun (r : string) : option string :=
  let run := takeWhile isIdChar r in
  if truthy run then Some run else None.

(** A literal followed by [([a-zA-Z0-9_-]+)]. *)
Definition litThenId (lit r : string) : option string :=
  match stripPrefix lit r with
  | Some r' => idRun r'
  | None => None
  end.

(** Alternatives at one position, tried from left to right. *)
Fixpoint firstSome {A : Type} (l : list (option A)) : option A :=
  match l with
  | [] => None
  | Some a :: _ => Some a
  | None :: l' => firstSome l'
  end.

(** [s.match(p)] without the [g] flag: the match at the leftmost position
    that has one. *)
Fixpoint firstMatch (at_ : string -> option string) (s : string)
  : option string :=
  match at_ s with
  | Some x => Some x
  | None =>
      match s with
      | EmptyString => None
      | String _ s' => firstMatch at_ s'
      end
  end.

(** [.*] followed by [at_]: the star is greedy, so the longest stretch
    without a line terminator after which [at_] matches. *)
Fixpoint dotStarThen (at_ : string -> option string) (s : string)
  : option string :=
  match s with
  | EmptyString => at_ EmptyString
  | String c s' =>
      if isLineTerminator c then at_ s
      else
        match dotStarThen at_ s' with
        | Some x => Some x
        | None => at_ s
        end
  end.

(** For [test]: the remainders that a run of the pattern can leave.
    [afterLit p rs] are those left after the literal [p], and an optional
    group leaves what the group leaves or what it was given. *)
Definition afterLit (p : string) (rs : list string) : list string :=
  flat_map (fun r => match stripPrefix p r with
                     | Some r' => [r']
                     | None => []
                     end) rs.

Definition afterOpt (group : list string -> list string) (rs : list string)
  : list string :=
  (group rs ++ rs)%list.

(** [.+] at the start of [r]. *)
Definition dotPlus (r : string) : bool :=
  match r with
  | EmptyString => false
  | String c _ => negb (isLineTerminator c)
  end.

(** ** Sorting

    [Array.prototype.sort(cmp)] is a stable sort: [a] is put before [b]
    when [cmp a b < 0], after it when [cmp a b > 0], and the two keep their
    order when the comparator answers [0] (a [NaN] answer counts as [0]).
    For a comparator that is consistent on the array this fixes the result,
    and the embedding takes the stable insertion order, which is that
    result.  The comparators of the catalog are consistent when they
    compare titles in a locale that is an order, and when they compare
    dates that all parse.  A date that does not parse makes the date
    comparators answer [NaN] against every other record, which ties that
    record with an older and with a newer one alike: the comparator is
    then not consistent, the language leaves the order to the engine, and
    the insertion order below is one order an engine may return, not the
    order every engine returns.  What is said below of the order that a
    sort by date produces is therefore said of records whose dates
    parse. *)

Section Sort.
Context {A : Type}.
Variable cmp : A -> A -> Z.

Fixpoint insert (x : A) (l : list A) : list A :=
  match l with
  | [] => [x]
  | y :: l' => if cmp x y <=? 0 then x :: l else y :: insert x l'
  end.

Fixpoint sort (l : list A) : list A :=
  match l with
  | [] => []
  | x :: l' => insert x (sort l')
  end.

(** [before a b]: the comparator lets [a] stand before [b]. *)
Definition before (a b : A) : Prop := cmp a b <= 0.
End Sort.

(** [x - y] on numbers of which either may be [NaN], as the sort reads it. *)
Definition minus (x y : option Z) : Z :=
  match x, y with
  | Some a, Some b => a - b
  | _, _ => 0
  end.

End JS.

(* ================================================================== *)
(** * The host: built-ins whose answer depends on the browser *)
(* ================================================================== *)

(** - [localeCompare a b] is [a.localeCompare(b)]: negative, zero or
      positive;
    - [dateTime s] is the time value of [new Date(s)] in milliseconds,
      [None] when the date is invalid (the time value is [NaN]);
    - [urlParses s] tells whether [new URL(s)] returns rather than throws. *)
Class Host : Type := {
  localeCompare : string -> string -> Z;
  dateTime : string -> option Z;
  urlParses : string -> bool
}.

(** The language standard requires [localeCompare] to be a consistent
    comparison: mirrored answers have mirrored signs, and "not after" is
    transitive. *)
Class LocaleOrder (H : Host) : Prop := {
  localeCompare_mirror :
    forall a b, 0 < localeCompare a b <-> localeCompare b a < 0;
  localeCompare_trans :
    forall a b c,
      localeCompare a b <= 0 -> localeCompare b c <= 0 ->
      localeCompare a c <= 0
}.

(* ================================================================== *)
(** * The catalog page *)
(* ================================================================== *)

Module Catalog.

(** A record of [data/videos.json], with the score that a search attaches
    to it ([None] while no search has touched the record). *)
Record Video : Type := mkVideo {
  id : string;
  title : string;
  description : string;
  thumbnail : string;
  videoUrl : string;
  driveUrl : string;
  dateAdded : string;
  folder : option string;
  _searchScore : option Z
}.

Definition setScore (v : Video) (s : Z) : Video :=
  mkVideo (id v) (title v) (description v) (thumbnail v) (videoUrl v)
          (driveUrl v) (dateAdded v) (folder v) (Some s).

(** The fields of [VideoCatalog] that searching, filtering and sorting read
    or write, and the value of the [searchInput] element of the page
    ([None] when the page has no such element).  The records of [videos]
    are distinct objects (they come out of one [response.json()]), so the
    scores that [performSearch] writes into them are kept by rewriting
    [videos]; every array built afterwards holds the records as written. *)
Record State : Type := mkState {
  videos : list Video;
  filteredVideos : list Video;
  currentSort : string;
  currentFolder : string;
  searchInput : option string
}.

Definition setVideos (st : State) (l : list Video) : State :=
  mkState l (filteredVideos st) (currentSort st) (currentFolder st)
          (searchInput st).

Definition setFilteredVideos (st : State) (l : list Video) : State :=
  mkState (videos st) l (currentSort st) (currentFolder st) (searchInput st).

(** The state that the constructor leaves. *)
Definition initial (box : option string) : State :=
  mkState [] [] "newest" "all" box.

Section WithHost.
Context {H : Host}.

(** ** Comparators *)

(** [new Date(b.dateAdded) - new Date(a.dateAdded)] *)
Definition byNewest (a b : Video) : Z :=
  JS.minus (dateTime (dateAdded b)) (dateTime (dateAdded a)).

(** [new Date(a.dateAdded) - new Date(b.dateAdded)] *)
Definition byOldest (a b : Video) : Z :=
  JS.minus (dateTime (dateAdded a)) (dateTime (dateAdded b)).

(** [a.title.localeCompare(b.title)] *)
Definition byTitle (a b : Video) : Z := localeCompare (title a) (title b).

(** [b.title.localeCompare(a.title)] *)
Definition byTitleDesc (a b : Video) : Z :=
  localeCompare (title b) (title a).

(** [v._searchScore || 0] *)
Definition scoreOrZero (v : Video) : Z :=
  match _searchScore v with Some s => s | None => 0 end.

(** [(b._searchScore || 0) - (a._searchScore || 0)] *)
Definition byRelevance (a b : Video) : Z := scoreOrZero b - scoreOrZero a.

(** ** [loadVideos] and [refreshVideos]

    The argument is the outcome of the fetch: [Some data] is the [videos]
    array of a document that arrived and parsed, [None] any failure. *)

Definition loadVideos (response : option (list Video)) (st : State)
  : State :=
  match response with
  | Some data =>
      let sorted := JS.sort byNewest data in
      setFilteredVideos (setVideos st sorted) sorted
  | None => setFilteredVideos (setVideos st []) []
  end.

(** ** [applySortAndFilter] *)

(** [video.folder && video.folder.toLowerCase().includes(term)] *)
Definition folderIncludes (term : string) (v : Video) : bool :=
  match folder v with
  | Some f => (JS.truthy f && JS.includes (JS.toLowerCase f) term)%bool
  | None => false
  end.

(** The callback of the text filter of [applySortAndFilter]. *)
Definition filterKeeps (searchTerm : string) (v : Video) : bool :=
  let titleMatch := JS.includes (JS.toLowerCase (title v)) searchTerm in
  let descriptionMatch :=
    JS.includes (JS.toLowerCase (description v)) searchTerm in
  let folderMatch := folderIncludes searchTerm v in
  (titleMatch || descriptionMatch || folderMatch)%bool.

(** [video.folder === this.currentFolder] *)
Definition folderIs (f : string) (v : Video) : bool :=
  match folder v with
  | Some g => String.eqb g f
  | None => false
  end.

(** The [switch] on [this.currentSort]. *)
Definition sortVideos (key : string) (l : list Video) : list Video :=
  if String.eqb key "oldest" then JS.sort byOldest l
  else if String.eqb key "title" then JS.sort byTitle l
  else if String.eqb key "title-desc" then JS.sort byTitleDesc l
  else JS.sort byNewest l.


(** The body of [applySortAndFilter] as a function of what it reads:
    the records, the normalised text of the search box, the active
    folder and the active sort key. *)
Definition applyPipeline (records : list Video) (searchTerm : string)
           (activeFolder sortKey : string) : list Video :=
  let videos1 :=
    if JS.truthy searchTerm
    then filter (filterKeeps searchTerm) records
    else records in
  let videos2 :=
    if negb (String.eqb activeFolder "all")
    then filter (folderIs activeFolder) videos1
    else videos1 in
  sortVideos sortKey videos2.

(** [searchInput ? searchInput.value.toLowerCase().trim() : ""] *)
Definition boxTerm (st : State) : string :=
  match searchInput st with
  | Some value => JS.trim (JS.toLowerCase value)
  | None => ""
  end.

Definition applySortAndFilter (st : State) : State :=
  setFilteredVideos st
    (applyPipeline (videos st) (boxTerm st) (currentFolder st)
                   (currentSort st)).

Definition refreshVideos (response : option (list Video)) (st : State)
  : State :=
  match response with
  | Some data =>
      if negb (Nat.eqb (List.length data) (List.length (videos st)))
      then applySortAndFilter (setVideos st (JS.sort byNewest data))
      else st
  | None => st
  end.

(** ** [performSearch] *)

(** The score that the filter callback of [performSearch] writes. *)
Definition searchScore (term : string) (v : Video) : Z :=
  let titleMatch := JS.includes (JS.toLowerCase (title v)) term in
  let descriptionMatch :=
    JS.includes (JS.toLowerCase (description v)) term in
  let folderMatch := folderIncludes term v in
  let exactMatch :=
    (String.eqb (JS.toLowerCase (title v)) term ||
     String.eqb (JS.toLowerCase (description v)) term)%bool in
  if exactMatch then 100
  else if titleMatch then 50
  else if folderMatch then 40
  else if descriptionMatch then 25
  else 0.

(** What the filter callback of [performSearch] returns. *)
Definition searchKeeps (term : string) (v : Video) : bool :=
  let titleMatch := JS.includes (JS.toLowerCase (title v)) term in
  let descriptionMatch :=
    JS.includes (JS.toLowerCase (description v)) term in
  let folderMatch := folderIncludes term v in
  (titleMatch || descriptionMatch || folderMatch)%bool.

(** The callback as a whole: it writes the score into the record. *)
Definition scoreVideo (term : string) (v : Video) : Video :=
  setScore v (searchScore term v).

(** [performSearch] up to, and without, its call of
    [applySortAndFilter]. *)
Definition rankByRelevance (searchTerm : string) (st : State) : State :=
  let term := JS.trim (JS.toLowerCase searchTerm) in
  if negb (JS.truthy term)
  then setFilteredVideos st (videos st)
  else
    let scored := map (scoreVideo term) (videos st) in
    let kept := filter (searchKeeps term) scored in
    setFilteredVideos (setVideos st scored) (JS.sort byRelevance kept).

(** [updateSearchResults] only draws, so [performSearch] ends with the
    state that [applySortAndFilter] leaves. *)
Definition performSearch (searchTerm : string) (st : State) : State :=
  applySortAndFilter (rankByRelevance searchTerm st).

(** ** The handlers that drive the above *)

(** The [input] handler of the search box (after the debounce): the box
    holds [value] and [performSearch] gets it. *)
Definition onSearchInput (value : string) (st : State) : State :=
  performSearch value
    (mkState (videos st) (filteredVideos st) (currentSort st)
             (currentFolder st) (Some value)).

Definition onSortChange (value : string) (st : State) : State :=
  applySortAndFilter
    (mkState (videos st) (filteredVideos st) value (currentFolder st)
             (searchInput st)).

Definition onFolderChange (value : string) (st : State) : State :=
  applySortAndFilter
    (mkState (videos st) (filteredVideos st) (currentSort st) value
             (searchInput st)).

Definition clearAllFilters (st : State) : State :=
  performSearch ""
    (mkState (videos st) (filteredVideos st) "newest" "all"
             (match searchInput st with
              | Some _ => Some ""
              | None => None
              end)).

End WithHost.

End Catalog.


(* ================================================================== *)
(** * The upload page *)
(* ================================================================== *)

Module Uploader.

(** The kinds of video URL. *)
Inductive UrlKind : Type := GoogleDrive | YouTube | DirectVideo | Unknown.

(** The help texts that [validateDriveUrl] puts under the URL field. *)
Inductive HelpText : Type :=
| HelpPaste       (* "Paste the shareable link from ..." *)
| HelpDrive       (* "Valid Google Drive URL" *)
| HelpYouTube     (* "Valid YouTube URL" *)
| HelpVideo       (* "Valid video URL" *)
| HelpInvalid.    (* "Please enter a valid ... URL" *)

(** The values of the form's elements ([None]: the page has no such
    element). *)
Record Form : Type := mkForm {
  driveUrlInput : option string;
  videoTitleInput : option string;
  videoDescriptionInput : option string;
  thumbnailUrlInput : option string;
  folderSelect : option string;
  newFolderInput : option string
}.

(** What [getFormData] returns. *)
Record FormData : Type := mkFormData {
  driveUrl : string;
  title : string;
  description : string;
  thumbnailUrl : string;
  folder : string
}.

(** [element?.value.trim() || ""] *)
Definition trimmedValue (element : option string) : string :=
  match element with
  | Some value => JS.trim value
  | None => ""
  end.

Definition getFormData (f : Form) : FormData :=
  let folder0 :=
    match folderSelect f with Some value => value | None => "" end in
  let folder1 :=
    if String.eqb folder0 "__new__" then trimmedValue (newFolderInput f)
    else folder0 in
  mkFormData (trimmedValue (driveUrlInput f))
             (trimmedValue (videoTitleInput f))
             (trimmedValue (videoDescriptionInput f))
             (trimmedValue (thumbnailUrlInput f))
             folder1.

Definition videoExtensions : list string :=
  [".mp4"; ".webm"; ".ogg"; ".avi"; ".mov"; ".wmv"; ".flv"; ".mkv"].

Definition imageExtensions : list string :=
  [".jpg"; ".jpeg"; ".png"; ".gif"; ".webp"; ".svg"].

(** ** URL predicates *)

(** [url && url.includes("drive.google.com") && url.includes("/file/d/")] *)
Definition isValidGoogleDriveUrl (url : string) : bool :=
  (JS.truthy url && JS.includes url "drive.google.com" &&
   JS.includes url "/file/d/")%bool.

(** [/^(https?:\/\/)?(www\.)?(youtube\.com|youtu\.be)\/.+/.test(url)] *)
Definition isValidYouTubeUrl (url : string) : bool :=
  let scheme rs :=
    JS.afterLit "://" (JS.afterOpt (JS.afterLit "s") (JS.afterLit "http" rs)) in
  let r1 := JS.afterOpt scheme [url] in
  let r2 := JS.afterOpt (JS.afterLit "www.") r1 in
  let r3 :=
    (JS.afterLit "youtube.com" r2 ++ JS.afterLit "youtu.be" r2)%list in
  existsb JS.dotPlus (JS.afterLit "/" r3).

(** [/\/file\/d\/([a-zA-Z0-9_-]+)/] *)
Definition extractGoogleDriveFileId (url : string) : option string :=
  JS.firstMatch (JS.litThenId "/file/d/") url.

(** The two patterns of [extractYouTubeVideoId], the first with a match
    wins. *)
Definition extractYouTubeVideoId (url : string) : option string :=
  let pattern0 r :=
    JS.firstSome [JS.litThenId "youtube.com/watch?v=" r;
                  JS.litThenId "youtu.be/" r;
                  JS.litThenId "youtube.com/embed/" r] in
  let pattern1 r :=
    match JS.stripPrefix "youtube.com/watch?" r with
    | Some r' => JS.dotStarThen (JS.litThenId "v=") r'
    | None => None
    end in
  JS.firstSome [JS.firstMatch pattern0 url; JS.firstMatch pattern1 url].

Section WithHost.
Context {H : Host}.

Definition isValidDirectVideoUrl (url : string) : bool :=
  if negb (JS.truthy url) then false
  else if urlParses url
       then JS.includesAny (JS.toLowerCase url) videoExtensions
       else false.

Definition isValidImageUrl (url : string) : bool :=
  if negb (JS.truthy url) then true
  else if urlParses url
       then (JS.includesAny (JS.toLowerCase url) imageExtensions ||
             JS.includes url "thumbnail")%bool
       else false.

(** [validateDriveUrl]: its answer and the help text it shows. *)
Definition validateDriveUrl (url : string) : bool * HelpText :=
  if negb (JS.truthy url) then (false, HelpPaste)
  else if isValidGoogleDriveUrl url then (true, HelpDrive)
  else if isValidYouTubeUrl url then (true, HelpYouTube)
  else if isValidDirectVideoUrl url then (true, HelpVideo)
  else (false, HelpInvalid).

(** The kind that [validateDriveUrl] reports for a URL. *)
Definition classify (url : string) : UrlKind :=
  match snd (validateDriveUrl url) with
  | HelpDrive => GoogleDrive
  | HelpYouTube => YouTube
  | HelpVideo => DirectVideo
  | HelpPaste | HelpInvalid => Unknown
  end.

(** ** [validateForm]

    The checks thread the flag [isValid] and the array [errors]. *)

Definition Verdict : Type := bool * list string.

Definition reject (message : string) (c : Verdict) : Verdict :=
  (false, (snd c ++ [message])%list).

Definition validateForm (data : FormData) : Verdict :=
  let c0 : Verdict := (true, []) in
  let c1 :=
    if negb (JS.truthy (driveUrl data))
    then reject "Video URL is required" c0
    else if negb (fst (validateDriveUrl (driveUrl data)))
         then reject "Invalid video URL" c0
         else c0 in
  let c2 :=
    if negb (JS.truthy (title data))
    then reject "Title is required" c1
    else if Nat.ltb (String.length (title data)) 3
         then reject "Title too short" c1
         else if Nat.ltb 100 (String.length (title data))
              then reject "Title too long" c1
              else c1 in
  let c3 :=
    if negb (JS.truthy (folder data))
    then reject "Folder is required" c2
    else c2 in
  let c4 :=
    if (JS.truthy (description data) &&
        Nat.ltb 500 (String.length (description data)))%bool
    then reject "Description too long" c3
    else c3 in
  let c5 :=
    if (JS.truthy (thumbnailUrl data) &&
        negb (isValidImageUrl (thumbnailUrl data)))%bool
    then reject "Invalid thumbnail URL" c4
    else c4 in
  c5.

(** The test that [handleSubmit] makes before anything is shown. *)
Definition accepts (f : Form) : bool := fst (validateForm (getFormData f)).

End WithHost.

(** ** [convertToEmbedUrl] *)

Definition convertToEmbedUrl (url : string) : string :=
  if isValidGoogleDriveUrl url then
    match extractGoogleDriveFileId url with
    | Some fileId => "https://drive.google.com/file/d/" ++ fileId ++ "/preview"
    | None => url
    end
  else if isValidYouTubeUrl url then
    match extractYouTubeVideoId url with
    | Some videoId => "https://www.youtube.com/embed/" ++ videoId
    | None => url
    end
  else url.

End Uploader.

(* ================================================================== *)
(** * The playback page *)
(* ================================================================== *)

Module Player.

Definition videoExtensions : list string :=
  [".mp4"; ".webm"; ".ogg"; ".avi"; ".mov"; ".wmv"; ".flv"; ".mkv"].

Definition isGoogleDriveUrl (url : string) : bool :=
  (JS.truthy url && JS.includes url "drive.google.com")%bool.

Definition isYouTubeUrl (url : string) : bool :=
  (JS.truthy url &&
   (JS.includes url "youtube.com" || JS.includes url "youtu.be"))%bool.

Definition isDirectVideoUrl (url : string) : bool :=
  if negb (JS.truthy url) then false
  else JS.includesAny (JS.toLowerCase url) videoExtensions.

Definition convertGoogleDriveUrl (url : string) : string :=
  match JS.firstMatch (JS.litThenId "/file/d/") url with
  | Some fileId => "https://drive.google.com/file/d/" ++ fileId ++ "/preview"
  | None => url
  end.

End Player.

(* ================================================================== *)
(** * A sample host *)
(* ================================================================== *)

(** A host to run the scripts on sample data.  It answers as a browser
    does on the strings used below: titles made of letters of one case,
    calendar dates written [YYYY-MM-DD], and [http(s)] URLs. *)

Module Sample.

(** Code unit order, character by character. *)
Fixpoint codeUnitOrder (a b : string) : Z :=
  match a, b with
  | EmptyString, EmptyString => 0
  | EmptyString, String _ _ => -1
  | String _ _, EmptyString => 1
  | String x a', String y b' =>
      if N.ltb (JS.code x) (JS.code y) then -1
      else if N.ltb (JS.code y) (JS.code x) then 1
      else codeUnitOrder a' b'
  end.

Definition digit (c : ascii) : option Z :=
  if JS.inRange 48 57 c then Some (Z.of_N (JS.code c) - 48) else None.

(** [digits n s acc]: read [n] decimal digits off [s]. *)
Fixpoint digits (n : nat) (s : string) (acc : Z) : option (Z * string) :=
  match n with
  | O => Some (acc, s)
  | S n' =>
      match s with
      | EmptyString => None
      | String c s' =>
          match digit c with
          | Some d => digits n' s' (acc * 10 + d)
          | None => None
          end
      end
  end.

Definition isLeap (y : Z) : bool :=
  ((y mod 4 =? 0) && (negb (y mod 100 =? 0) || (y mod 400 =? 0)))%bool.

Definition daysInMonth (y m : Z) : Z :=
  if m =? 2 then (if isLeap y then 29 else 28)
  else if ((m =? 4) || (m =? 6) || (m =? 9) || (m =? 11))%bool then 30
  else 31.

(** Days from 1970-01-01 to the given day of the Gregorian calendar. *)
Definition daysFromCivil (y m d : Z) : Z :=
  let y' := if m <=? 2 then y - 1 else y in
  let era := y' / 400 in
  let yoe := y' - era * 400 in
  let mp := if 2 <? m then m - 3 else m + 9 in
  let doy := (153 * mp + 2) / 5 + d - 1 in
  let doe := yoe * 365 + yoe / 4 - yoe / 100 + doy in
  era * 146097 + doe - 719468.

(** The time value of a date written [YYYY-MM-DD] (midnight UTC). *)
Definition isoDate (s : string) : option Z :=
  match digits 4 s 0 with
  | Some (y, String "-"%char r1) =>
      match digits 2 r1 0 with
      | Some (m, String "-"%char r2) =>
          match digits 2 r2 0 with
          | Some (d, EmptyString) =>
              if ((1 <=? m) && (m <=? 12) && (1 <=? d) &&
                  (d <=? daysInMonth y m))%bool
              then Some (daysFromCivil y m d * 86400000)
              else None
          | _ => None
          end
      | _ => None
      end
  | _ => None
  end.

Definition isAlnum (c : ascii) : bool :=
  (JS.inRange 97 122 c || JS.inRange 65 90 c || JS.inRange 48 57 c)%bool.

(** [http://] or [https://] followed by a host that starts with a letter or
    a digit. *)
Definition httpUrl (s : string) : bool :=
  let host r :=
    match r with
    | Some (String c _) => isAlnum c
    | _ => false
    end in
  (host (JS.stripPrefix "http://" s) || host (JS.stripPrefix "https://" s))%bool.

#[export] Instance host : Host := {
  localeCompare := codeUnitOrder;
  dateTime := isoDate;
  urlParses := httpUrl
}.

(** Sample records: the title serves as id. *)
Definition video (title description date : string) (folder : option string)
  : Catalog.Video :=
  Catalog.mkVideo title title description "" "" "" date folder None.

(** A document of two records, the older one first. *)
Definition cat : Catalog.Video :=
  video "cat" "" "2024-01-01" (Some "Animals").

Definition dogs : Catalog.Video :=
  video "Dogs" "a cat appears" "2024-02-01" (Some "Pets").

Definition document : list Catalog.Video := [cat; dogs].

(** The page after its first load, with an empty search box. *)
Definition loaded : Catalog.State :=
  Catalog.loadVideos (Some document) (Catalog.initial (Some "")).

(** The loaded page with [text] in its search box. *)
Definition searching (text : string) : Catalog.State :=
  Catalog.mkState (Catalog.videos loaded) (Catalog.filteredVideos loaded)
                  "newest" "all" (Some text).

(** The loaded page after "Oldest First" was chosen. *)
Definition oldestFirst : Catalog.State :=
  Catalog.onSortChange "oldest" loaded.

(** Three records titled Alpha, Beta and Gamma. *)
Definition alpha : Catalog.Video := video "Alpha" "" "2024-01-01" None.
Definition beta : Catalog.Video := video "Beta" "" "2024-02-01" None.
Definition gamma : Catalog.Video := video "Gamma" "" "2024-03-01" None.

(** A record whose date does not parse. *)
Definition undated : Catalog.Video := video "Undated" "" "soon" None.

(** What a list of records shows: titles and scores. *)
Definition shown (l : list Catalog.Video) : list (string * option Z) :=
  map (fun v => (Catalog.title v, Catalog._searchScore v)) l.

(** The two records with the scores that a search for "cat" gives them. *)
Definition catScored : Catalog.Video := Catalog.setScore cat 100.
Definition dogsScored : Catalog.Video := Catalog.setScore dogs 25.

(** A form filled in with acceptable values. *)
Fixpoint letters (n : nat) : string :=
  match n with
  | O => EmptyString
  | S n' => String "a"%char (letters n')
  end.

Definition form (title description : string) : Uploader.Form :=
  Uploader.mkForm (Some "https://example.com/movie.mp4") (Some title)
                  (Some description) (Some "") (Some "Tutorials") None.

End Sample.

(* ================================================================== *)
(** * The specification's wording *)
(* ================================================================== *)

(** The rules of the specification, written after its sentences, to be
    compared with the scripts. *)

Module Spec.
Section WithHost.
Context {H : Host}.

(** Score assignment, highest wins: exact match of title or description
    100; substring of the title 50; of the folder 40; of the description
    25; no match 0. *)
Definition score (term : string) (v : Catalog.Video) : Z :=
  let t := JS.toLowerCase (Catalog.title v) in
  let d := JS.toLowerCase (Catalog.description v) in
  let f :=
    match Catalog.folder v with
    | Some g => JS.toLowerCase g
    | None => ""
    end in
  if (String.eqb t term || String.eqb d term)%bool then 100
  else if JS.includes t term then 50
  else if JS.includes f term then 40
  else if JS.includes d term then 25
  else 0.

(** A record matches when the term is a substring of its title, its
    description or its folder. *)
Definition matches (term : string) (v : Catalog.Video) : bool :=
  (JS.includes (JS.toLowerCase (Catalog.title v)) term ||
   JS.includes (JS.toLowerCase (Catalog.description v)) term ||
   match Catalog.folder v with
   | Some g => JS.includes (JS.toLowerCase g) term
   | None => false
   end)%bool.

(** The two filters of the pipeline, in their order. *)
Definition textStage (term : string) (records : list Catalog.Video)
  : list Catalog.Video :=
  filter (matches term) records.

Definition folderStage (activeFolder : string)
           (records : list Catalog.Video) : list Catalog.Video :=
  if String.eqb activeFolder "all" then records
  else filter (fun v => match Catalog.folder v with
                        | Some g => String.eqb g activeFolder
                        | None => false
                        end) records.

(** The direct-video rule: the string parses as an absolute URL and its
    lowercased form contains one of the extensions. *)
Definition directVideo (url : string) : bool :=
  (urlParses url &&
   JS.includesAny (JS.toLowerCase url) Uploader.videoExtensions)%bool.

(** The acceptance rule of the upload form. *)
Definition accepted (data : Uploader.FormData) : Prop :=
  Uploader.classify (Uploader.driveUrl data) <> Uploader.Unknown /\
  (3 <= String.length (Uploader.title data) <= 100)%nat /\
  (String.length (Uploader.description data) <= 500)%nat /\
  (Uploader.thumbnailUrl data = "" \/
   (urlParses (Uploader.thumbnailUrl data) = true /\
    (JS.includesAny (JS.toLowerCase (Uploader.thumbnailUrl data))
                    Uploader.imageExtensions = true \/
     JS.includes (Uploader.thumbnailUrl data) "thumbnail" = true))) /\
  Uploader.folder data <> "".

(** Orders of a list of records. *)
Definition titleAscending (a b : Catalog.Video) : Prop :=
  localeCompare (Catalog.title a) (Catalog.title b) <= 0.

Definition titleDescending (a b : Catalog.Video) : Prop :=
  localeCompare (Catalog.title b) (Catalog.title a) <= 0.

(** [newestFirst a b]: both dates are valid and [b] is not newer than
    [a]. *)
Definition newestFirst (a b : Catalog.Video) : Prop :=
  exists ta tb,
    dateTime (Catalog.dateAdded a) = Some ta /\
    dateTime (Catalog.dateAdded b) = Some tb /\
    tb <= ta.

Definition validDate (v : Catalog.Video) : Prop :=
  dateTime (Catalog.dateAdded v) <> None.

(** [oldestFirst a b]: both dates are valid and [b] is not older than
    [a]. *)
Definition oldestFirst (a b : Catalog.Video) : Prop :=
  exists ta tb,
    dateTime (Catalog.dateAdded a) = Some ta /\
    dateTime (Catalog.dateAdded b) = Some tb /\
    ta <= tb.

(** Some record of the list stands before a newer one. *)
Definition newerLater (l : list Catalog.Video) : Prop :=
  exists l1 a l2 b l3 ta tb,
    l = (l1 ++ a :: l2 ++ b :: l3)%list /\
    dateTime (Catalog.dateAdded a) = Some ta /\
    dateTime (Catalog.dateAdded b) = Some tb /\
    ta < tb.

(** The last stage of the pipeline: the order that a sort key asks for.
    Oldest first is ascending by date, the two title keys are ascending and
    descending by locale-aware comparison of the titles, newest first is
    descending by date and is the order of every other key. *)
Definition keyOrder (sortKey : string) (a b : Catalog.Video) : Prop :=
  if String.eqb sortKey "oldest" then oldestFirst a b
  else if String.eqb sortKey "title" then titleAscending a b
  else if String.eqb sortKey "title-desc" then titleDescending a b
  else newestFirst a b.

(** [ties sortKey a b]: the key does not tell [a] and [b] apart; their
    titles compare equal under a title key, their dates are the same time
    under a date key. *)
Definition ties (sortKey : string) (a b : Catalog.Video) : bool :=
  if (String.eqb sortKey "title" || String.eqb sortKey "title-desc")%bool
  then localeCompare (Catalog.title a) (Catalog.title b) =? 0
  else
    match dateTime (Catalog.dateAdded a), dateTime (Catalog.dateAdded b) with
    | Some ta, Some tb => ta =? tb
    | _, _ => false
    end.

(** The key orders the records: it is a title key, or every date
    parses. *)
Definition comparable (sortKey : string) (records : list Catalog.Video)
  : Prop :=
  sortKey = "title" \/ sortKey = "title-desc" \/ Forall validDate records.

(** [sortedBy sortKey input output]: [output] is [input] sorted by the key:
    the same records, in the order of the key, those that the key does not
    tell apart in the order they had. *)
Definition sortedBy (sortKey : string) (input output : list Catalog.Video)
  : Prop :=
  Permutation input output /\
  StronglySorted (keyOrder sortKey) output /\
  forall v, filter (ties sortKey v) output = filter (ties sortKey v) input.

(** [sameData v0 v]: [v] is the record [v0] as the document has it, all
    fields but the score. *)
Definition sameData (v0 v : Catalog.Video) : Prop :=
  Catalog.id v = Catalog.id v0 /\
  Catalog.title v = Catalog.title v0 /\
  Catalog.description v = Catalog.description v0 /\
  Catalog.thumbnail v = Catalog.thumbnail v0 /\
  Catalog.videoUrl v = Catalog.videoUrl v0 /\
  Catalog.driveUrl v = Catalog.driveUrl v0 /\
  Catalog.dateAdded v = Catalog.dateAdded v0 /\
  Catalog.folder v = Catalog.folder v0.

(** Descending by score. *)
Definition scoreDescending (a b : Catalog.Video) : Prop :=
  Catalog.scoreOrZero b <= Catalog.scoreOrZero a.

End WithHost.
End Spec.

(* ================================================================== *)
(** * More built-ins *)
(* ================================================================== *)

Module JSMore.

(** The order of [Array.prototype.sort()] without a comparator on strings:
    code unit by code unit. *)
Definition defaultCompare (a b : string) : Z := Sample.codeUnitOrder a b.

(** [set.add(x)] on a [Set] kept in insertion order. *)
Definition setAdd (x : string) (set : list string) : list string :=
  if existsb (String.eqb x) set then set else (set ++ [x])%list.

(** [s.split(sep)] for a separator of one character. *)
Fixpoint splitOn (sep : ascii) (s : string) : list string :=
  match s with
  | EmptyString => [EmptyString]
  | String c s' =>
      if Ascii.eqb c sep then EmptyString :: splitOn sep s'
      else
        match splitOn sep s' with
        | w :: ws => String c w :: ws
        | [] => [String c EmptyString]
        end
  end.

(** [Math.ceil(a / b)] for integers [a >= 0] and [b > 0]. *)
Definition ceilDiv (a b : Z) : Z := (a + b - 1) / b.

(** A non-negative integer in a template literal. *)
Definition decimal (n : Z) : string :=
  DecimalString.NilZero.string_of_uint (N.to_uint (Z.to_N n)).

(** Every code unit of [s] passes [f]. *)
Fixpoint every (f : ascii -> bool) (s : string) : bool :=
  match s with
  | EmptyString => true
  | String c s' => (f c && every f s')%bool
  end.

(** An id as the patterns capture it: a run of [[a-zA-Z0-9_-]], one
    character at least. *)
Definition isId (s : string) : bool :=
  (JS.truthy s && every JS.isIdChar s)%bool.

(** A run of id characters ends before [rest]: [rest] is empty or starts
    with another character. *)
Definition stops (rest : string) : bool :=
  match rest with
  | EmptyString => true
  | String c _ => negb (JS.isIdChar c)
  end.

(** [x || y] on strings. *)
Definition orElse (x y : string) : string := if JS.truthy x then x else y.

End JSMore.

(* ================================================================== *)
(** * The catalog page: folders, suggestions, thumbnails, dates *)
(* ================================================================== *)

Module CatalogPage.

(** ** [extractFolders] *)

Definition collectFolder (set : list string) (v : Catalog.Video)
  : list string :=
  match Catalog.folder v with
  | Some f => if JS.truthy f then JSMore.setAdd f set else set
  | None => set
  end.

Definition extractFolders (videos : list Catalog.Video) : list string :=
  JS.sort JSMore.defaultCompare (fold_left collectFolder videos []).

(** ** [generateSearchSuggestions] *)

Definition addWords (minLength : nat) (text : string) (set : list string)
  : list string :=
  fold_left
    (fun set word =>
       if Nat.ltb minLength (String.length word)
       then JSMore.setAdd (JS.toLowerCase word) set
       else set)
    (JSMore.splitOn " "%char text) set.

Definition suggestVideo (set : list string) (v : Catalog.Video)
  : list string :=
  let set1 := addWords 2 (Catalog.title v) set in
  let set2 := addWords 3 (Catalog.description v) set1 in
  match Catalog.folder v with
  | Some f =>
      if JS.truthy f then JSMore.setAdd (JS.toLowerCase f) set2 else set2
  | None => set2
  end.

Definition allSuggestions (videos : list Catalog.Video) : list string :=
  fold_left suggestVideo videos [].

Definition generateSearchSuggestions (videos : list Catalog.Video)
  : list string :=
  firstn 10 (allSuggestions videos).

(** [suggestedBy x v]: the record [v] gives rise to the suggestion [x], by
    a word of its title of more than 2 code units, a word of its
    description of more than 3, or its folder. *)
Definition suggestedBy (x : string) (v : Catalog.Video) : Prop :=
  (exists w, In w (JSMore.splitOn " "%char (Catalog.title v)) /\
             (2 < String.length w)%nat /\ x = JS.toLowerCase w) \/
  (exists w, In w (JSMore.splitOn " "%char (Catalog.description v)) /\
             (3 < String.length w)%nat /\ x = JS.toLowerCase w) \/
  (exists f, Catalog.folder v = Some f /\ f <> "" /\ x = JS.toLowerCase f).

(** The suggestions that [showSearchSuggestions] lists under the search
    box holding [value]. *)
Definition matchingSuggestions (searchSuggestions : list string)
           (value : string) : list string :=
  let currentValue := JS.toLowerCase value in
  firstn 5
    (filter (fun suggestion =>
               (JS.includes suggestion currentValue &&
                negb (String.eqb suggestion currentValue))%bool)
            searchSuggestions).

(** ** [getVideoSource] *)

Definition getVideoSource (v : Catalog.Video) : string :=
  if JS.includes (Catalog.driveUrl v) "drive.google.com" then "Google Drive"
  else if (JS.includes (Catalog.driveUrl v) "youtube.com" ||
           JS.includes (Catalog.driveUrl v) "youtu.be")%bool then "YouTube"
  else "Video".

(** ** [handleThumbnailError] *)

(** An image of a card: its [data-fallback-attempted], its [src], whether
    it still has an [onerror] handler, whether it is dimmed, and the
    [data-video-id] of the card around it ([None] without a card). *)
Record Img : Type := mkImg {
  fallbackAttempted : option string;
  src : string;
  onerror : bool;
  dimmed : bool;
  card : option string
}.

Definition placeholder : string := "assets/images/placeholder.png".

(** The file id that both fallbacks look for: the record of the card, if
    its [driveUrl] is a Google Drive URL, matched with
    [/\/d\/([a-zA-Z0-9-_]+)/]. *)
Definition fallbackFileId (videos : list Catalog.Video) (img : Img)
  : option string :=
  match card img with
  | Some videoId =>
      match find (fun v => String.eqb (Catalog.id v) videoId) videos with
      | Some video =>
          if (JS.truthy (Catalog.driveUrl video) &&
              JS.includes (Catalog.driveUrl video) "drive.google.com")%bool
          then JS.firstMatch (JS.litThenId "/d/") (Catalog.driveUrl video)
          else None
      | None => None
      end
  | None => None
  end.

Definition usePlaceholder (img : Img) : Img :=
  mkImg (fallbackAttempted img) placeholder false true (card img).

Definition attempt (mark : string) (newSrc : string -> string)
           (videos : list Catalog.Video) (img : Img) : Img :=
  let img1 :=
    mkImg (Some mark) (src img) (onerror img) (dimmed img) (card img) in
  match fallbackFileId videos img1 with
  | Some fileId =>
      mkImg (Some mark) (newSrc fileId) (onerror img) (dimmed img) (card img)
  | None => usePlaceholder img1
  end.

Definition handleThumbnailError (videos : list Catalog.Video) (img : Img)
  : Img :=
  match fallbackAttempted img with
  | None =>
      attempt "1"
        (fun fileId =>
           "https://drive.google.com/thumbnail?id=" ++ fileId ++ "&sz=w400-h300")
        videos img
  | Some mark =>
      if negb (JS.truthy mark) then
        attempt "1"
          (fun fileId =>
             "https://drive.google.com/thumbnail?id=" ++ fileId
               ++ "&sz=w400-h300")
          videos img
      else if String.eqb mark "1" then
        attempt "2"
          (fun fileId =>
             "https://lh3.googleusercontent.com/d/" ++ fileId ++ "=w400-h300")
          videos img
      else usePlaceholder img
  end.

Section WithHost.
Context {H : Host}.

(** ** [formatDate]

    [now] is the time value of [new Date()], and [toLocaleDateString]
    renders a time value ([None]: an invalid date) in the browser's
    locale.  The quotients are formed on numbers far below 2^53, where
    [Math.ceil] of the rounded quotient is the integer ceiling. *)
Definition formatDate (toLocaleDateString : option Z -> string) (now : Z)
           (dateString : string) : string :=
  match dateTime dateString with
  | None => toLocaleDateString None
  | Some t =>
      let diffTime := Z.abs (now - t) in
      let diffDays := JSMore.ceilDiv diffTime (1000 * 60 * 60 * 24) in
      if diffDays =? 1 then "Yesterday"
      else if diffDays <? 7 then JSMore.decimal diffDays ++ " days ago"
      else if diffDays <? 30
           then JSMore.decimal (JSMore.ceilDiv diffDays 7) ++ " weeks ago"
      else if diffDays <? 365
           then JSMore.decimal (JSMore.ceilDiv diffDays 30) ++ " months ago"
      else toLocaleDateString (Some t)
  end.

(** ** The page as a whole *)

(** The catalog with the two lists that [loadVideos] derives. *)
Record Page : Type := mkPage {
  catalog : Catalog.State;
  folders : list string;
  searchSuggestions : list string
}.

(** [loadVideos] in full: a failure empties the records and leaves the
    derived lists as they were. *)
Definition loadVideos (response : option (list Catalog.Video)) (p : Page)
  : Page :=
  let st := Catalog.loadVideos response (catalog p) in
  match response with
  | Some _ =>
      mkPage st (extractFolders (Catalog.videos st))
             (generateSearchSuggestions (Catalog.videos st))
  | None => mkPage st (folders p) (searchSuggestions p)
  end.

(** [refreshVideos] in full: the folders follow a replacement, the
    suggestions do not. *)
Definition refreshVideos (response : option (list Catalog.Video)) (p : Page)
  : Page :=
  let st := Catalog.refreshVideos response (catalog p) in
  match response with
  | Some data =>
      if negb (Nat.eqb (List.length data)
                       (List.length (Catalog.videos (catalog p))))
      then mkPage st (extractFolders (Catalog.videos st))
                  (searchSuggestions p)
      else p
  | None => p
  end.

(** What happens on the page. *)
Inductive Event : Type :=
| Refresh (response : option (list Catalog.Video))
| Reload (response : option (list Catalog.Video))
| SearchInput (value : string)
| EscapeKey
| SuggestionClick (suggestion : string)
| SortChange (value : string)
| FolderChange (value : string)
| ClearFilters.

Definition withCatalog (p : Page) (st : Catalog.State) : Page :=
  mkPage st (folders p) (searchSuggestions p).

Definition handle (e : Event) (p : Page) : Page :=
  match e with
  | Refresh response => refreshVideos response p
  | Reload response => loadVideos response p
  | SearchInput value =>
      withCatalog p (Catalog.onSearchInput value (catalog p))
  | EscapeKey => withCatalog p (Catalog.onSearchInput "" (catalog p))
  | SuggestionClick suggestion =>
      withCatalog p (Catalog.onSearchInput suggestion (catalog p))
  | SortChange value =>
      withCatalog p (Catalog.onSortChange value (catalog p))
  | FolderChange value =>
      withCatalog p (Catalog.onFolderChange value (catalog p))
  | ClearFilters => withCatalog p (Catalog.clearAllFilters (catalog p))
  end.

(** The page after [init], and after the events that follow. *)
Definition start (response : option (list Catalog.Video)) : Page :=
  loadVideos response (mkPage (Catalog.initial (Some "")) [] []).


(** [kept st]: the stored records are in the order of the newest-first
    comparator, and every record shown is a stored record. *)
Definition kept (st : Catalog.State) : Prop :=
  Sorted (JS.before Catalog.byNewest) (Catalog.videos st) /\
  incl (Catalog.filteredVideos st) (Catalog.videos st).

(** The list shown is what the pipeline makes of the stored records and
    the controls. *)
Definition inSync (st : Catalog.State) : Prop :=
  Catalog.filteredVideos st =
  Catalog.applyPipeline (Catalog.videos st) (Catalog.boxTerm st)
                        (Catalog.currentFolder st) (Catalog.currentSort st).

End WithHost.
End CatalogPage.

(* ================================================================== *)
(** * The upload page: thumbnails, fields, the record *)
(* ================================================================== *)

Module UploadPage.

Definition driveThumbnail (fileId : string) : string :=
  "https://drive.google.com/thumbnail?id=" ++ fileId ++ "&sz=w400-h300".

Definition youTubeThumbnail (videoId : string) : string :=
  "https://img.youtube.com/vi/" ++ videoId ++ "/maxresdefault.jpg".

(** [autoGenerateThumbnail]: the value of the thumbnail field afterwards. *)
Definition autoGenerateThumbnail (driveUrl thumbnail : string) : string :=
  if (negb (Uploader.isValidGoogleDriveUrl driveUrl) ||
      JS.truthy thumbnail)%bool
  then thumbnail
  else
    match Uploader.extractGoogleDriveFileId driveUrl with
    | Some fileId => driveThumbnail fileId
    | None => thumbnail
    end.

(** [autoGenerateYouTubeThumbnail]: the value of the thumbnail field
    afterwards. *)
Definition autoGenerateYouTubeThumbnail (url thumbnail : string) : string :=
  if JS.truthy thumbnail then thumbnail
  else if Uploader.isValidYouTubeUrl url then
    match Uploader.extractYouTubeVideoId url with
    | Some videoId => youTubeThumbnail videoId
    | None => thumbnail
    end
  else thumbnail.

(** The [change] handler of the URL field. *)
Definition onUrlChange (url thumbnail : string) : string :=
  autoGenerateYouTubeThumbnail url (autoGenerateThumbnail url thumbnail).

Definition getDefaultThumbnail : string := "assets/images/placeholder.png".

(** The record that [showUploadInstructions] writes out; the id and the
    date come from the browser. *)
Definition showUploadInstructions (videoId dateAdded : string)
           (data : Uploader.FormData) : Catalog.Video :=
  let convertedUrl := Uploader.convertToEmbedUrl (Uploader.driveUrl data) in
  Catalog.mkVideo videoId (Uploader.title data)
    (JSMore.orElse (Uploader.description data) "")
    (JSMore.orElse (Uploader.thumbnailUrl data) getDefaultThumbnail)
    convertedUrl convertedUrl dateAdded (Some (Uploader.folder data)) None.

Section WithHost.
Context {H : Host}.

(** [validateField] on the field with id [fieldId] and value [value0]. *)
Definition validateField (fieldId value0 : string) : bool :=
  let value := JS.trim value0 in
  if String.eqb fieldId "driveUrl" then
    negb (JS.truthy value && negb (fst (Uploader.validateDriveUrl value)))
  else if String.eqb fieldId "videoTitle" then
    negb (JS.truthy value && Nat.ltb (String.length value) 3)
  else if String.eqb fieldId "thumbnailUrl" then
    negb (JS.truthy value && negb (Uploader.isValidImageUrl value))
  else if String.eqb fieldId "folderSelect" then
    negb (negb (JS.truthy value) || String.eqb value "")
  else true.

End WithHost.
End UploadPage.

(* ================================================================== *)
(** * The playback page: choosing a player *)
(* ================================================================== *)

Module PlaybackPage.

(** What [renderVideoPlayer] puts into the player container. *)
Inductive Rendering : Type :=
| DriveFrame (src : string)
| YouTubeFrame (src : string)
| VideoElement (src : string)
| Unsupported (href : string).

Definition renderVideoPlayer (v : Catalog.Video) : Rendering :=
  let videoUrl := JSMore.orElse (Catalog.videoUrl v) (Catalog.driveUrl v) in
  if Player.isGoogleDriveUrl videoUrl
  then DriveFrame (Player.convertGoogleDriveUrl videoUrl)
  else if Player.isYouTubeUrl videoUrl then YouTubeFrame videoUrl
  else if Player.isDirectVideoUrl videoUrl then VideoElement videoUrl
  else Unsupported videoUrl.

Definition getVideoSource (v : Catalog.Video) : string :=
  let videoUrl := JSMore.orElse (Catalog.videoUrl v) (Catalog.driveUrl v) in
  if JS.includes videoUrl "drive.google.com" then "Google Drive"
  else if (JS.includes videoUrl "youtube.com" ||
           JS.includes videoUrl "youtu.be")%bool then "YouTube"
  else "Direct Video".

(** [data.videos.find(video => video.id === this.videoId)] *)
Definition findVideo (videos : list Catalog.Video) (videoId : string)
  : option Catalog.Video :=
  find (fun v => String.eqb (Catalog.id v) videoId) videos.

End PlaybackPage.

(* ================================================================== *)
(** * Facts about the primitives *)
(* ================================================================== *)

Section SortFacts.
Context {A : Type}.
Variable cmp : A -> A -> Z.

Lemma insert_perm (x : A) (l : list A) :
  Permutation (x :: l) (JS.insert cmp x l).
Proof.
  induction l as [|y l IH]; simpl.
  - apply Permutation_refl.
  - destruct (cmp x y <=? 0).
    + apply Permutation_refl.
    + eapply perm_trans; [apply perm_swap|].
      apply perm_skip, IH.
Qed.

Lemma sort_perm (l : list A) : Permutation l (JS.sort cmp l).
Proof.
  induction l as [|x l IH]; simpl.
  - apply perm_nil.
  - eapply perm_trans; [apply perm_skip, IH|apply insert_perm].
Qed.

Lemma sort_in (l : list A) (x : A) : In x (JS.sort cmp l) <-> In x l.
Proof.
  split; apply Permutation_in;
    [apply Permutation_sym|]; apply sort_perm.
Qed.

Lemma sort_length (l : list A) :
  List.length (JS.sort cmp l) = List.length l.
Proof. symmetry. apply Permutation_length, sort_perm. Qed.

Lemma sort_forallb (p : A -> bool) (l : list A) :
  forallb p l = true -> forallb p (JS.sort cmp l) = true.
Proof.
  rewrite !forallb_forall. intros Hl x Hx. apply Hl, sort_in, Hx.
Qed.



(** Stability: the members of a class that the comparator does not
    separate keep their order. *)
Lemma insert_filter (p : A -> bool) (x : A) (l : list A) :
  (forall y, In y l -> p x = true -> p y = true -> cmp x y <= 0) ->
  filter p (JS.insert cmp x l) = filter p (x :: l).
Proof.
  induction l as [|y l IH]; intros Hp; simpl; [reflexivity|].
  destruct (cmp x y <=? 0) eqn:E; [reflexivity|].
  apply Z.leb_gt in E. simpl.
  assert (IH' : filter p (JS.insert cmp x l) = filter p (x :: l)).
  { apply IH. intros z Hz. apply Hp. right. exact Hz. }
  rewrite IH'. simpl.
  destruct (p x) eqn:Px, (p y) eqn:Py; try reflexivity.
  exfalso. specialize (Hp y (or_introl eq_refl) eq_refl Py). lia.
Qed.

Lemma sort_stable (p : A -> bool) (l : list A) :
  (forall x y, p x = true -> p y = true -> cmp x y <= 0) ->
  filter p (JS.sort cmp l) = filter p l.
Proof.
  intros Hp. induction l as [|x l IH]; simpl; [reflexivity|].
  rewrite insert_filter by (intros; apply Hp; assumption).
  simpl. rewrite IH. reflexivity.
Qed.

(** The comparator's answers are mirrored. *)
Hypothesis mirror : forall a b, 0 < cmp a b -> cmp b a <= 0.

Lemma insert_HdRel (a x : A) (l : list A) :
  JS.before cmp a x -> HdRel (JS.before cmp) a l ->
  HdRel (JS.before cmp) a (JS.insert cmp x l).
Proof.
  intros Hax Hal. destruct l as [|y l]; simpl.
  - constructor. exact Hax.
  - destruct (cmp x y <=? 0); constructor; [exact Hax|].
    inversion Hal; assumption.
Qed.

Lemma insert_sorted (x : A) (l : list A) :
  Sorted (JS.before cmp) l -> Sorted (JS.before cmp) (JS.insert cmp x l).
Proof.
  induction 1 as [|y l Hl IH Hy]; simpl.
  - repeat constructor.
  - destruct (cmp x y <=? 0) eqn:E.
    + constructor; [constructor; assumption|].
      constructor. apply Z.leb_le, E.
    + apply Z.leb_gt in E. constructor; [exact IH|].
      apply insert_HdRel; [|exact Hy].
      apply mirror. lia.
Qed.

Lemma sort_sorted (l : list A) : Sorted (JS.before cmp) (JS.sort cmp l).
Proof.
  induction l as [|x l IH]; simpl; [constructor|].
  apply insert_sorted, IH.
Qed.


End SortFacts.

(** Filtering twice with one test is filtering once, also across a
    rearrangement that keeps the members. *)
Lemma filter_all {A : Type} (p : A -> bool) (l : list A) :
  forallb p l = true -> filter p l = l.
Proof.
  induction l as [|x l IH]; simpl; [reflexivity|].
  intros Hx. apply andb_prop in Hx as [Hx Hl].
  rewrite Hx, IH by exact Hl. reflexivity.
Qed.



(** ** Strings *)

Lemma startsWith_empty (s : string) : JS.startsWith s "" = true.
Proof. destruct s; reflexivity. Qed.

Lemma includes_empty (s : string) : JS.includes s "" = true.
Proof. destruct s; simpl; reflexivity. Qed.

Lemma startsWith_refl (s : string) : JS.startsWith s s = true.
Proof.
  induction s as [|c s IH]; simpl; [reflexivity|].
  rewrite Ascii.eqb_refl, IH. reflexivity.
Qed.

Lemma includes_refl (s : string) : JS.includes s s = true.
Proof.
  destruct s; simpl; [reflexivity|].
  rewrite Ascii.eqb_refl, startsWith_refl. reflexivity.
Qed.

Lemma includes_eqb (s t : string) :
  String.eqb s t = true -> JS.includes s t = true.
Proof. intros E. apply String.eqb_eq in E. subst. apply includes_refl. Qed.

Lemma includes_in_empty (sub : string) :
  JS.includes "" sub = JS.isEmpty sub.
Proof. destruct sub; reflexivity. Qed.

Lemma truthy_false (s : string) : JS.truthy s = false <-> s = "".
Proof. destruct s; cbn; split; congruence. Qed.

Lemma truthy_true (s : string) : JS.truthy s = true <-> s <> "".
Proof. destruct s; cbn; split; congruence. Qed.




Lemma trimStart_head (s : string) (c : ascii) (r : string) :
  JS.trimStart s = String c r -> JS.isWhiteSpace c = false.
Proof.
  induction s as [|d s IH]; simpl; [discriminate|].
  destruct (JS.isWhiteSpace d) eqn:E; [exact IH|].
  intros [= -> _]. exact E.
Qed.



(* ================================================================== *)
(** * The catalog: filtering and sorting *)
(* ================================================================== *)

Section CatalogFacts.
Context {H : Host}.

Import Catalog.

(** The folder test of the scripts guards against an empty folder name;
    for a term that is not empty the guard changes nothing. *)
Lemma folderIncludes_plain (term : string) (v : Video) :
  term <> "" ->
  folderIncludes term v =
  match folder v with
  | Some g => JS.includes (JS.toLowerCase g) term
  | None => false
  end.
Proof.
  intros Hterm. unfold folderIncludes.
  destruct (folder v) as [g|]; [|reflexivity].
  destruct g as [|c g]; [|reflexivity].
  change (JS.toLowerCase "") with "". rewrite includes_in_empty.
  destruct term; [congruence|reflexivity].
Qed.

(** The search and the pipeline keep the same records, those that match in
    the specification's sense. *)
Lemma filterKeeps_searchKeeps (term : string) (v : Video) :
  filterKeeps term v = searchKeeps term v.
Proof. reflexivity. Qed.

Lemma searchKeeps_matches (term : string) (v : Video) :
  searchKeeps term v = Spec.matches term v.
Proof.
  unfold searchKeeps, Spec.matches.
  destruct term as [|c term].
  - rewrite !includes_empty. reflexivity.
  - rewrite folderIncludes_plain by discriminate. reflexivity.
Qed.

(** The guard [if (searchTerm)] skips a filter that would keep
    everything. *)
Lemma text_stage (term : string) (records : list Video) :
  (if JS.truthy term then filter (filterKeeps term) records else records) =
  Spec.textStage term records.
Proof.
  unfold Spec.textStage.
  destruct term as [|c term]; cbn.
  - symmetry. apply filter_all, forallb_forall. intros v _.
    unfold Spec.matches. rewrite includes_empty. reflexivity.
  - apply filter_ext. intros v.
    rewrite filterKeeps_searchKeeps. apply searchKeeps_matches.
Qed.

Lemma folder_stage (activeFolder : string) (records : list Video) :
  (if negb (String.eqb activeFolder "all")
   then filter (folderIs activeFolder) records
   else records) =
  Spec.folderStage activeFolder records.
Proof.
  unfold Spec.folderStage. destruct (String.eqb activeFolder "all");
    reflexivity.
Qed.

Lemma applyPipeline_stages (records : list Video)
      (term activeFolder sortKey : string) :
  applyPipeline records term activeFolder sortKey =
  sortVideos sortKey
    (Spec.folderStage activeFolder (Spec.textStage term records)).
Proof.
  unfold applyPipeline.
  rewrite text_stage, folder_stage. reflexivity.
Qed.

(** ** The comparators of the [switch] *)

Lemma byNewest_mirror (a b : Video) : 0 < byNewest a b -> byNewest b a <= 0.
Proof.
  unfold byNewest, JS.minus.
  destruct (dateTime (dateAdded a)), (dateTime (dateAdded b)); lia.
Qed.

Lemma byOldest_mirror (a b : Video) : 0 < byOldest a b -> byOldest b a <= 0.
Proof.
  unfold byOldest, JS.minus.
  destruct (dateTime (dateAdded a)), (dateTime (dateAdded b)); lia.
Qed.

Lemma byRelevance_mirror (a b : Video) :
  0 < byRelevance a b -> byRelevance b a <= 0.
Proof. unfold byRelevance. lia. Qed.

Lemma sortVideos_perm (key : string) (l : list Video) :
  Permutation l (sortVideos key l).
Proof.
  unfold sortVideos.
  repeat match goal with |- context [if ?b then _ else _] => destruct b end;
    apply sort_perm.
Qed.


Section WithLocaleOrder.
Context {LO : LocaleOrder H}.

Lemma byTitle_mirror (a b : Video) : 0 < byTitle a b -> byTitle b a <= 0.
Proof.
  unfold byTitle. intros Hab. apply localeCompare_mirror in Hab. lia.
Qed.

Lemma byTitleDesc_mirror (a b : Video) :
  0 < byTitleDesc a b -> byTitleDesc b a <= 0.
Proof.
  unfold byTitleDesc. intros Hab. apply localeCompare_mirror in Hab. lia.
Qed.


End WithLocaleOrder.
End CatalogFacts.

(* ================================================================== *)
(** * The sample host is a host *)
(* ================================================================== *)

Ltac split_ltb :=
  repeat match goal with
         | |- context [N.ltb ?x ?y] =>
             let E := fresh "E" in
             destruct (N.ltb x y) eqn:E;
             [apply N.ltb_lt in E|apply N.ltb_ge in E]
         | H : context [N.ltb ?x ?y] |- _ =>
             let E := fresh "E" in
             destruct (N.ltb x y) eqn:E;
             [apply N.ltb_lt in E|apply N.ltb_ge in E]
         end.

Lemma codeUnitOrder_mirror (a b : string) :
  0 < Sample.codeUnitOrder a b <-> Sample.codeUnitOrder b a < 0.
Proof.
  revert b. induction a as [|x a IH]; intros [|y b]; simpl; try lia.
  split_ltb; try lia. apply IH.
Qed.

Lemma codeUnitOrder_trans (a b c : string) :
  Sample.codeUnitOrder a b <= 0 -> Sample.codeUnitOrder b c <= 0 ->
  Sample.codeUnitOrder a c <= 0.
Proof.
  revert b c.
  induction a as [|x a IH]; intros [|y b] [|z c]; simpl; try lia.
  intros Hab Hbc. split_ltb; try lia. eapply IH; eassumption.
Qed.

#[export] Instance sample_locale_order : LocaleOrder Sample.host.
Proof.
  split.
  - exact codeUnitOrder_mirror.
  - exact codeUnitOrder_trans.
Qed.

(* ================================================================== *)
(** * The catalog: searching *)
(* ================================================================== *)

Section SearchFacts.
Context {H : Host}.

Import Catalog.


(** For a term that is not empty the script's score is the
    specification's. *)
Lemma searchScore_spec (term : string) (v : Video) :
  term <> "" -> searchScore term v = Spec.score term v.
Proof.
  intros Hterm. unfold searchScore, Spec.score.
  rewrite folderIncludes_plain by exact Hterm.
  destruct (folder v) as [g|]; [reflexivity|].
  rewrite includes_in_empty.
  destruct term; [congruence|reflexivity].
Qed.

(** The score is 0 exactly for the records that do not match. *)
Lemma score_zero_iff (term : string) (v : Video) :
  term <> "" -> (Spec.score term v = 0 <-> Spec.matches term v = false).
Proof.
  intros Hterm. unfold Spec.score, Spec.matches.
  assert (Hg : match folder v with
               | Some g => JS.includes (JS.toLowerCase g) term
               | None => false
               end =
               JS.includes match folder v with
                           | Some g => JS.toLowerCase g
                           | None => ""
                           end term).
  { destruct (folder v); [reflexivity|].
    rewrite includes_in_empty. destruct term; [congruence|reflexivity]. }
  rewrite Hg. clear Hg.
  set (t := JS.toLowerCase (title v)).
  set (d := JS.toLowerCase (description v)).
  set (f := match folder v with Some g => JS.toLowerCase g | None => "" end).
  pose proof (includes_eqb t term) as Ht.
  pose proof (includes_eqb d term) as Hd.
  destruct (String.eqb t term), (String.eqb d term),
           (JS.includes t term), (JS.includes f term), (JS.includes d term);
    cbn; split; intros E; try reflexivity; try lia; try discriminate E;
    try (specialize (Ht eq_refl); discriminate Ht);
    try (specialize (Hd eq_refl); discriminate Hd).
Qed.

(** Writing a score does not change what a record matches. *)
Lemma matches_setScore (term : string) (v : Video) (s : Z) :
  Spec.matches term (setScore v s) = Spec.matches term v.
Proof. reflexivity. Qed.

(** What [performSearch] leaves is what [applySortAndFilter] computes from
    the records, scored or not: the ranking by relevance is overwritten. *)
Lemma performSearch_filteredVideos (searchTerm : string) (st : State) :
  filteredVideos (performSearch searchTerm st) =
  applyPipeline (videos (rankByRelevance searchTerm st)) (boxTerm st)
                (currentFolder st) (currentSort st).
Proof.
  unfold performSearch, applySortAndFilter, rankByRelevance.
  destruct (negb (JS.truthy (JS.trim (JS.toLowerCase searchTerm))));
    reflexivity.
Qed.

Lemma performSearch_videos (searchTerm : string) (st : State) :
  videos (performSearch searchTerm st) =
  videos (rankByRelevance searchTerm st).
Proof. reflexivity. Qed.


Lemma rankByRelevance_term (searchTerm : string) (st : State) :
  JS.trim (JS.toLowerCase searchTerm) <> "" ->
  rankByRelevance searchTerm st =
  let term := JS.trim (JS.toLowerCase searchTerm) in
  let scored := map (scoreVideo term) (videos st) in
  setFilteredVideos (setVideos st scored)
    (JS.sort byRelevance (filter (searchKeeps term) scored)).
Proof.
  intros Hterm. apply truthy_true in Hterm.
  unfold rankByRelevance. rewrite Hterm. reflexivity.
Qed.

#[local] Instance scoreDescending_trans : Transitive Spec.scoreDescending.
Proof. unfold Spec.scoreDescending. intros a b c. lia. Qed.

(** The ranking that [performSearch] builds before it calls
    [applySortAndFilter]: descending by score, and stable, the records of
    one score in the order they had. *)
Lemma rankByRelevance_ranked (searchTerm : string) (st : State) :
  let term := JS.trim (JS.toLowerCase searchTerm) in
  let kept := filter (searchKeeps term) (map (scoreVideo term) (videos st)) in
  term <> "" ->
  StronglySorted Spec.scoreDescending
    (filteredVideos (rankByRelevance searchTerm st)) /\
  forall k,
    filter (fun v => scoreOrZero v =? k)
           (filteredVideos (rankByRelevance searchTerm st)) =
    filter (fun v => scoreOrZero v =? k) kept.
Proof.
  intros term kept Hterm. rewrite rankByRelevance_term by exact Hterm.
  cbn. split.
  - apply Sorted_StronglySorted; [exact scoreDescending_trans|].
    assert (Hs := sort_sorted byRelevance byRelevance_mirror
                    (filter (searchKeeps (JS.trim (JS.toLowerCase searchTerm)))
                       (map (scoreVideo (JS.trim (JS.toLowerCase searchTerm)))
                            (videos st)))).
    eapply Sorted_ind with (P := fun l => Sorted Spec.scoreDescending l);
      [constructor| |exact Hs].
    intros a l _ IH Ha. constructor; [exact IH|].
    destruct Ha as [|b l Hab]; constructor.
    unfold JS.before, byRelevance in Hab. unfold Spec.scoreDescending. lia.
  - intros k. apply sort_stable. intros x y Hx Hy.
    apply Z.eqb_eq in Hx, Hy. unfold byRelevance. lia.
Qed.

End SearchFacts.

(** C1.  The page after a search, on the sample document: the search for
    "cat" ranks the record titled "cat" (score 100) before "Dogs" (score
    25), and [applySortAndFilter] then replaces that ranking by the order
    of the active sort key, newest first, so the record with score 25 is
    shown before the record with score 100. *)
Theorem search_result_not_ordered_by_score :
  let st := Catalog.onSearchInput (H := Sample.host) "cat" Sample.loaded in
  Catalog.filteredVideos
    (Catalog.rankByRelevance "cat" Sample.loaded) =
    [Sample.catScored; Sample.dogsScored] /\
  Catalog.filteredVideos st = [Sample.dogsScored; Sample.catScored] /\
  ~ StronglySorted Spec.scoreDescending (Catalog.filteredVideos st).
Proof.
  cbv zeta.
  assert (E : Catalog.filteredVideos
                (Catalog.onSearchInput (H := Sample.host) "cat"
                                       Sample.loaded) =
              [Sample.dogsScored; Sample.catScored])
    by (vm_compute; reflexivity).
  split; [vm_compute; reflexivity|]. split; [exact E|].
  rewrite E. intros Hs.
  apply StronglySorted_inv in Hs as [_ Hd].
  apply Forall_inv in Hd. vm_compute in Hd. apply Hd. reflexivity.
Qed.

Section ScoreFacts.
Context {H : Host}.

Import Catalog.

(** Writing a score leaves the other fields of a record alone. *)
Lemma sameData_setScore (v : Video) (s : Z) : Spec.sameData v (setScore v s).
Proof. unfold Spec.sameData. cbn. repeat split. Qed.

Lemma score_setScore (v : Video) (s : Z) : _searchScore (setScore v s) = Some s.
Proof. reflexivity. Qed.

(** The records that a search stores, for a term that is not empty: the
    stored records with the specification's score written into them. *)
Lemma performSearch_scored (searchTerm : string) (st : State) :
  JS.trim (JS.toLowerCase searchTerm) <> "" ->
  videos (performSearch searchTerm st) =
  map (fun v => setScore v (Spec.score (JS.trim (JS.toLowerCase searchTerm)) v))
      (videos st).
Proof.
  intros Hterm. rewrite performSearch_videos.
  rewrite rankByRelevance_term by exact Hterm. cbn.
  apply map_ext. intros v. unfold scoreVideo.
  rewrite searchScore_spec by exact Hterm. reflexivity.
Qed.

Lemma Forall2_map_self {A B : Type} (R : A -> B -> Prop) (f : A -> B)
      (l : list A) :
  (forall x, R x (f x)) -> Forall2 R l (map f l).
Proof.
  intros HR. induction l as [|x l IH]; simpl; constructor; auto.
Qed.

End ScoreFacts.

(** C2.  For a term that is not empty after lowercasing and trimming, and
    with the search box holding what is searched, the search writes one
    score into every stored record and leaves the rest of the record as it
    was; the score is the highest that applies: 100 for a title or
    description equal to the term, else 50 for a title that contains it,
    else 40 for a folder, else 25 for a description, else 0.  Every record
    of the list that the search leaves carries its score, which is not 0;
    and with the active folder ["all"] every stored record whose score is
    not 0 is in that list. *)
Theorem search_score_rule (H : Host) (st : Catalog.State)
        (searchTerm : string) :
  let term := JS.trim (JS.toLowerCase searchTerm) in
  let st' := Catalog.performSearch searchTerm st in
  term <> "" ->
  Catalog.searchInput st = Some searchTerm ->
  Forall2 (fun v0 v =>
             Spec.sameData v0 v /\
             Catalog._searchScore v = Some (Spec.score term v0))
          (Catalog.videos st) (Catalog.videos st') /\
  (forall v,
      In v (Catalog.filteredVideos st') ->
      exists v0,
        In v0 (Catalog.videos st) /\
        Spec.sameData v0 v /\
        Catalog._searchScore v = Some (Spec.score term v0) /\
        Spec.score term v0 <> 0) /\
  (forall v,
      In v (Catalog.filteredVideos st') ->
      Catalog._searchScore v <> None /\ Catalog._searchScore v <> Some 0) /\
  (Catalog.currentFolder st = "all" ->
   forall v0,
     In v0 (Catalog.videos st) ->
     Spec.score term v0 <> 0 ->
     exists v,
       In v (Catalog.filteredVideos st') /\
       Spec.sameData v0 v /\
       Catalog._searchScore v = Some (Spec.score term v0)).
Proof.
  intros term st' Hterm Hbox.
  assert (Hvideos :
            Catalog.videos st' =
            map (fun v => Catalog.setScore v (Spec.score term v))
                (Catalog.videos st))
    by (apply performSearch_scored; exact Hterm).
  assert (Hfiltered :
            Catalog.filteredVideos st' =
            Catalog.sortVideos (Catalog.currentSort st)
              (Spec.folderStage (Catalog.currentFolder st)
                 (Spec.textStage term (Catalog.videos st')))).
  { unfold st'. rewrite performSearch_filteredVideos, applyPipeline_stages.
    unfold Catalog.boxTerm. rewrite Hbox. reflexivity. }
  assert (Hshown :
            forall v,
              In v (Catalog.filteredVideos st') ->
              exists v0,
                In v0 (Catalog.videos st) /\
                Spec.sameData v0 v /\
                Catalog._searchScore v = Some (Spec.score term v0) /\
                Spec.score term v0 <> 0).
  { intros v Hv. rewrite Hfiltered in Hv.
    eapply Permutation_in in Hv;
      [|apply Permutation_sym, sortVideos_perm].
    assert (Hk : In v (Spec.textStage term (Catalog.videos st'))).
    { unfold Spec.folderStage in Hv.
      destruct (String.eqb (Catalog.currentFolder st) "all");
        [exact Hv|].
      apply filter_In in Hv. tauto. }
    unfold Spec.textStage in Hk. rewrite Hvideos in Hk.
    apply filter_In in Hk as [Hin Hm].
    apply in_map_iff in Hin as [v0 [<- Hv0]].
    exists v0. split; [exact Hv0|].
    split; [apply sameData_setScore|]. split; [apply score_setScore|].
    rewrite matches_setScore in Hm. intros Hz.
    apply (score_zero_iff _ _ Hterm) in Hz. congruence. }
  split; [|split; [exact Hshown|split]].
  - rewrite Hvideos. apply Forall2_map_self. intros v0.
    split; [apply sameData_setScore|apply score_setScore].
  - intros v Hv. destruct (Hshown v Hv) as [v0 [_ [_ [Es Hnz]]]].
    rewrite Es. split; [discriminate|]. intros E. injection E as E.
    exact (Hnz E).
  - intros Hall v0 Hv0 Hnz.
    exists (Catalog.setScore v0 (Spec.score term v0)).
    split; [|split; [apply sameData_setScore|apply score_setScore]].
    rewrite Hfiltered, Hall.
    eapply Permutation_in; [apply sortVideos_perm|].
    unfold Spec.folderStage. cbn [String.eqb Ascii.eqb Bool.eqb].
    unfold Spec.textStage. apply filter_In. split.
    + rewrite Hvideos.
      exact (in_map (fun v => Catalog.setScore v (Spec.score term v))
                    _ _ Hv0).
    + rewrite matches_setScore.
      destruct (Spec.matches term v0) eqn:Em; [reflexivity|].
      apply (score_zero_iff _ _ Hterm) in Em. contradiction.
Qed.

Lemma search_score_rule_witness :
  Forall2 (fun v0 v =>
             Spec.sameData v0 v /\
             Catalog._searchScore v = Some (Spec.score "cat" v0))
          (Catalog.videos (Sample.searching "cat"))
          (Catalog.videos
             (Catalog.performSearch (H := Sample.host) "cat"
                                    (Sample.searching "cat"))).
Proof.
  refine (proj1 (search_score_rule Sample.host (Sample.searching "cat")
                                   "cat" _ _)).
  - vm_compute. discriminate.
  - reflexivity.
Defined.

Section BlankSearch.
Context {H : Host}.

Import Catalog.


End BlankSearch.




(* ================================================================== *)
(** * The catalog: loading *)
(* ================================================================== *)

Section LoadFacts.
Context {H : Host}.

Import Catalog.

#[local] Instance newestFirst_trans : Transitive Spec.newestFirst.
Proof.
  intros a b c [ta [tb [Ea [Eb Hab]]]] [tb' [tc [Eb' [Ec Hbc]]]].
  exists ta, tc. rewrite Eb in Eb'. injection Eb' as <-.
  repeat split; try assumption. lia.
Qed.

(** Between records with valid dates the comparator of [loadVideos] tells
    which is newer. *)
Lemma before_newestFirst (a b : Video) :
  Spec.validDate a -> Spec.validDate b ->
  JS.before byNewest a b -> Spec.newestFirst a b.
Proof.
  unfold Spec.validDate, JS.before, byNewest, Spec.newestFirst, JS.minus.
  destruct (dateTime (dateAdded a)) as [ta|], (dateTime (dateAdded b)) as [tb|];
    try congruence.
  intros _ _ Hab. exists ta, tb. repeat split. lia.
Qed.

Lemma sorted_newestFirst (l : list Video) :
  Forall Spec.validDate l ->
  Sorted (JS.before byNewest) l ->
  StronglySorted Spec.newestFirst l.
Proof.
  intros Hvalid Hs. apply Sorted_StronglySorted; [exact newestFirst_trans|].
  induction Hs as [|a l Hl IH Ha]; [constructor|].
  apply Forall_cons_iff in Hvalid as [Hva Hvl].
  constructor; [apply IH, Hvl|].
  destruct Ha as [|b l Hab]; constructor.
  apply Forall_inv in Hvl. apply before_newestFirst; assumption.
Qed.

(** What sorting by [byNewest] makes of a document. *)
Lemma sort_byNewest (data : list Video) :
  Permutation data (JS.sort byNewest data) /\
  Sorted (JS.before byNewest) (JS.sort byNewest data) /\
  (Forall Spec.validDate data ->
   StronglySorted Spec.newestFirst (JS.sort byNewest data)).
Proof.
  split; [apply sort_perm|].
  assert (Hs := sort_sorted byNewest byNewest_mirror data).
  split; [exact Hs|].
  intros Hvalid. apply sorted_newestFirst; [|exact Hs].
  eapply Permutation_Forall; [apply sort_perm|exact Hvalid].
Qed.

#[local] Instance oldestFirst_trans : Transitive Spec.oldestFirst.
Proof.
  intros a b c [ta [tb [Ea [Eb Hab]]]] [tb' [tc [Eb' [Ec Hbc]]]].
  exists ta, tc. rewrite Eb in Eb'. injection Eb' as <-.
  repeat split; try assumption. lia.
Qed.

Lemma before_oldestFirst (a b : Video) :
  Spec.validDate a -> Spec.validDate b ->
  JS.before byOldest a b -> Spec.oldestFirst a b.
Proof.
  unfold Spec.validDate, JS.before, byOldest, Spec.oldestFirst, JS.minus.
  destruct (dateTime (dateAdded a)) as [ta|], (dateTime (dateAdded b)) as [tb|];
    try congruence.
  intros _ _ Hab. exists ta, tb. repeat split. lia.
Qed.

Lemma sorted_oldestFirst (l : list Video) :
  Forall Spec.validDate l ->
  Sorted (JS.before byOldest) l ->
  StronglySorted Spec.oldestFirst l.
Proof.
  intros Hvalid Hs. apply Sorted_StronglySorted; [exact oldestFirst_trans|].
  induction Hs as [|a l Hl IH Ha]; [constructor|].
  apply Forall_cons_iff in Hvalid as [Hva Hvl].
  constructor; [apply IH, Hvl|].
  destruct Ha as [|b l Hab]; constructor.
  apply Forall_inv in Hvl. apply before_oldestFirst; assumption.
Qed.

(** Under a date key, the records of one date keep their order through
    both sorts by date. *)
Lemma ties_date_stable (key : string) (v : Video) (l : list Video) :
  String.eqb key "title" = false ->
  String.eqb key "title-desc" = false ->
  filter (Spec.ties key v) (JS.sort byNewest l) = filter (Spec.ties key v) l /\
  filter (Spec.ties key v) (JS.sort byOldest l) = filter (Spec.ties key v) l.
Proof.
  intros E1 E2. unfold Spec.ties. rewrite E1, E2. cbn [orb].
  split; apply sort_stable; intros x y Hx Hy;
    unfold byNewest, byOldest, JS.minus;
    destruct (dateTime (dateAdded v)), (dateTime (dateAdded x)),
             (dateTime (dateAdded y));
    try discriminate; apply Z.eqb_eq in Hx, Hy; lia.
Qed.

(** In a list that is newest first no record stands before a newer one. *)
Lemma newestFirst_not_newerLater (l : list Video) :
  StronglySorted Spec.newestFirst l -> ~ Spec.newerLater l.
Proof.
  intros Hs [l1 [a [l2 [b [l3 [ta [tb [-> [Ea [Eb Hlt]]]]]]]]]].
  induction l1 as [|x l1 IH]; simpl in Hs;
    apply StronglySorted_inv in Hs as [Hs Hd].
  - rewrite Forall_forall in Hd.
    destruct (Hd b) as [ta' [tb' [Ea' [Eb' Hle]]]].
    { apply in_or_app. right. left. reflexivity. }
    rewrite Ea in Ea'. rewrite Eb in Eb'.
    injection Ea' as <-. injection Eb' as <-. lia.
  - exact (IH Hs).
Qed.

(** What sorting by [byNewest] makes of a document whose dates parse: the
    document sorted newest first. *)
Lemma sort_byNewest_sortedBy (data : list Video) :
  Forall Spec.validDate data ->
  Spec.sortedBy "newest" data (JS.sort byNewest data) /\
  StronglySorted Spec.newestFirst (JS.sort byNewest data) /\
  ~ Spec.newerLater (JS.sort byNewest data).
Proof.
  intros Hvalid.
  assert (Hs : StronglySorted Spec.newestFirst (JS.sort byNewest data))
    by (apply sort_byNewest; exact Hvalid).
  split; [|split; [exact Hs|apply newestFirst_not_newerLater, Hs]].
  split; [apply sort_perm|]. split; [exact Hs|].
  intros v. apply (ties_date_stable "newest" v data); reflexivity.
Qed.

End LoadFacts.

(** C10, as the scripts have it.  When every [dateAdded] of the document
    parses, the stored list after a load that succeeds, and after a refresh
    that replaces the records (the document has another number of records
    than are stored), is the document sorted newest first: the same
    records, none of them before a newer one, those of one date in the
    order of the document.  The sort comes first: the load shows the
    sorted list, and the refresh runs the pipeline on the sorted list. *)
Theorem stored_records_newest_first (H : Host) (data : list Catalog.Video)
        (st : Catalog.State) :
  Forall Spec.validDate data ->
  (let st' := Catalog.loadVideos (Some data) st in
   Spec.sortedBy "newest" data (Catalog.videos st') /\
   StronglySorted Spec.newestFirst (Catalog.videos st') /\
   ~ Spec.newerLater (Catalog.videos st') /\
   Catalog.filteredVideos st' = Catalog.videos st') /\
  (List.length data <> List.length (Catalog.videos st) ->
   let st' := Catalog.refreshVideos (Some data) st in
   Spec.sortedBy "newest" data (Catalog.videos st') /\
   StronglySorted Spec.newestFirst (Catalog.videos st') /\
   ~ Spec.newerLater (Catalog.videos st') /\
   Catalog.filteredVideos st' =
     Catalog.applyPipeline (Catalog.videos st')
       (Catalog.boxTerm st) (Catalog.currentFolder st)
       (Catalog.currentSort st)).
Proof.
  intros Hvalid.
  destruct (sort_byNewest_sortedBy data Hvalid) as [Hs [Hss Hn]].
  split.
  - cbn. repeat split; try assumption; apply Hs.
  - intros Hlen. unfold Catalog.refreshVideos.
    apply Nat.eqb_neq in Hlen. rewrite Hlen. cbn.
    repeat split; try assumption; apply Hs.
Qed.

Lemma stored_records_newest_first_witness :
  StronglySorted (Spec.newestFirst (H := Sample.host))
    (Catalog.videos
       (Catalog.refreshVideos (H := Sample.host) (Some Sample.document)
                              (Catalog.initial (Some "")))).
Proof.
  refine (proj1 (proj2
            (proj2 (stored_records_newest_first Sample.host Sample.document
                      (Catalog.initial (Some "")) _) _))).
  - repeat constructor; vm_compute; discriminate.
  - cbn. lia.
Defined.

(** C10, as the specification has it, fails: a document of a record added
    in January, a record whose date does not parse, and a record added in
    February is stored in that order, the February record after the older
    January record. *)
Lemma unparseable_date_defeats_load :
  let st' :=
    Catalog.loadVideos (H := Sample.host)
      (Some [Sample.alpha; Sample.undated; Sample.beta])
      (Catalog.initial (Some "")) in
  Catalog.videos st' = [Sample.alpha; Sample.undated; Sample.beta] /\
  Catalog.filteredVideos st' = [Sample.alpha; Sample.undated; Sample.beta] /\
  Spec.newerLater (H := Sample.host) (Catalog.videos st') /\
  ~ StronglySorted (Spec.newestFirst (H := Sample.host)) (Catalog.videos st').
Proof.
  cbv zeta.
  assert (E : Catalog.videos
                (Catalog.loadVideos (H := Sample.host)
                   (Some [Sample.alpha; Sample.undated; Sample.beta])
                   (Catalog.initial (Some ""))) =
              [Sample.alpha; Sample.undated; Sample.beta])
    by (vm_compute; reflexivity).
  assert (Hn : Spec.newerLater (H := Sample.host)
                 [Sample.alpha; Sample.undated; Sample.beta]).
  { exists [], Sample.alpha, [Sample.undated], Sample.beta, [],
           1704067200000, 1706745600000.
    repeat split; vm_compute; reflexivity. }
  split; [exact E|]. split; [vm_compute; reflexivity|]. rewrite E.
  split; [exact Hn|].
  intros Hs. exact (newestFirst_not_newerLater _ Hs Hn).
Qed.

(** The order of the document is not the order of the stored list: the
    sample document has its older record first, the page its newer one. *)
Example document_order_not_kept :
  Sample.document = [Sample.cat; Sample.dogs] /\
  Catalog.videos Sample.loaded = [Sample.dogs; Sample.cat].
Proof. split; vm_compute; reflexivity. Qed.

(* ================================================================== *)
(** * The catalog: sorting by title *)
(* ================================================================== *)

Section TitleFacts.
Context {H : Host} {LO : LocaleOrder H}.

Import Catalog.

#[local] Instance titleAscending_trans : Transitive Spec.titleAscending.
Proof.
  intros a b c. unfold Spec.titleAscending. apply localeCompare_trans.
Qed.

#[local] Instance titleDescending_trans : Transitive Spec.titleDescending.
Proof.
  intros a b c Hab Hbc. unfold Spec.titleDescending in *.
  eapply localeCompare_trans; eassumption.
Qed.

Lemma sort_byTitle (l : list Video) :
  StronglySorted Spec.titleAscending (JS.sort byTitle l).
Proof.
  apply Sorted_StronglySorted; [exact titleAscending_trans|].
  exact (sort_sorted byTitle byTitle_mirror l).
Qed.

Lemma sort_byTitleDesc (l : list Video) :
  StronglySorted Spec.titleDescending (JS.sort byTitleDesc l).
Proof.
  apply Sorted_StronglySorted; [exact titleDescending_trans|].
  exact (sort_sorted byTitleDesc byTitleDesc_mirror l).
Qed.

Lemma localeCompare_zero_sym (a b : string) :
  localeCompare a b = 0 -> localeCompare b a = 0.
Proof.
  intros E. pose proof (localeCompare_mirror a b).
  pose proof (localeCompare_mirror b a). lia.
Qed.

(** Under a title key, the records whose titles compare equal keep their
    order through both sorts by title. *)
Lemma ties_title_stable (key : string) (v : Video) (l : list Video) :
  (String.eqb key "title" || String.eqb key "title-desc")%bool = true ->
  filter (Spec.ties key v) (JS.sort byTitle l) = filter (Spec.ties key v) l /\
  filter (Spec.ties key v) (JS.sort byTitleDesc l) =
    filter (Spec.ties key v) l.
Proof.
  intros E. unfold Spec.ties. rewrite E.
  split; apply sort_stable; intros x y Hx Hy; apply Z.eqb_eq in Hx, Hy;
    unfold byTitle, byTitleDesc.
  - apply localeCompare_trans with (b := title v);
      [rewrite (localeCompare_zero_sym _ _ Hx)|rewrite Hy]; lia.
  - apply localeCompare_trans with (b := title v);
      [rewrite (localeCompare_zero_sym _ _ Hy)|rewrite Hx]; lia.
Qed.

(** The [switch] sorts by the key: whenever the key orders the records,
    what it returns is the records sorted by the key. *)
Lemma sortVideos_sortedBy (key : string) (l : list Video) :
  Spec.comparable key l -> Spec.sortedBy key l (sortVideos key l).
Proof.
  intros Hc. split; [apply sortVideos_perm|].
  unfold sortVideos, Spec.keyOrder.
  destruct (String.eqb key "oldest") eqn:Eo.
  { apply String.eqb_eq in Eo. subst key.
    destruct Hc as [Hc|[Hc|Hc]]; try discriminate Hc. split.
    - apply sorted_oldestFirst;
        [eapply Permutation_Forall; [apply sort_perm|exact Hc]|].
      apply sort_sorted. exact byOldest_mirror.
    - intros v. apply (ties_date_stable "oldest" v l); reflexivity. }
  destruct (String.eqb key "title") eqn:Et.
  { split; [apply sort_byTitle|].
    intros v. apply (ties_title_stable key v l). rewrite Et. reflexivity. }
  destruct (String.eqb key "title-desc") eqn:Ed.
  { split; [apply sort_byTitleDesc|].
    intros v. apply (ties_title_stable key v l). rewrite Ed.
    apply orb_true_r. }
  destruct Hc as [Hc|[Hc|Hc]].
  - subst key. discriminate Et.
  - subst key. discriminate Ed.
  - split.
    + apply sort_byNewest. exact Hc.
    + intros v. apply (ties_date_stable key v l); assumption.
Qed.


End TitleFacts.

(** C4, as the scripts have it.  The key for the ascending order is
    ["title"]: with it the pipeline puts the records it keeps in ascending
    order of [localeCompare] on their titles, and with ["title-desc"] in
    descending order; records titled Alpha, Beta, Gamma come out of
    ["title-desc"] as Gamma, Beta, Alpha in a locale that orders the three
    names alphabetically. *)
Theorem title_sort_orders (H : Host) (LO : LocaleOrder H)
        (alphabetical :
           localeCompare "Alpha" "Beta" < 0 /\
           localeCompare "Beta" "Gamma" < 0 /\
           localeCompare "Alpha" "Gamma" < 0) :
  (forall records term activeFolder,
      let kept := Spec.folderStage activeFolder (Spec.textStage term records) in
      Permutation kept
        (Catalog.applyPipeline records term activeFolder "title") /\
      StronglySorted Spec.titleAscending
        (Catalog.applyPipeline records term activeFolder "title") /\
      Permutation kept
        (Catalog.applyPipeline records term activeFolder "title-desc") /\
      StronglySorted Spec.titleDescending
        (Catalog.applyPipeline records term activeFolder "title-desc")) /\
  (forall a b g,
      Catalog.title a = "Alpha" ->
      Catalog.title b = "Beta" ->
      Catalog.title g = "Gamma" ->
      Catalog.applyPipeline [a; b; g] "" "all" "title-desc" = [g; b; a]).
Proof.
  split.
  - intros records term activeFolder kept.
    rewrite !applyPipeline_stages.
    fold kept. repeat split.
    + apply sortVideos_perm.
    + apply sort_byTitle.
    + apply sortVideos_perm.
    + apply sort_byTitleDesc.
  - intros a b g Ha Hb Hg. destruct alphabetical as [Hab [Hbg Hag]].
    apply localeCompare_mirror in Hab, Hbg, Hag.
    cbn. unfold Catalog.byTitleDesc at 2. rewrite Hb, Hg.
    destruct (Z.leb_spec (localeCompare "Gamma" "Beta") 0); [lia|].
    cbn. unfold Catalog.byTitleDesc. rewrite Ha, Hb, Hg.
    destruct (Z.leb_spec (localeCompare "Gamma" "Alpha") 0); [lia|].
    destruct (Z.leb_spec (localeCompare "Beta" "Alpha") 0); [lia|].
    reflexivity.
Qed.

Lemma title_sort_orders_witness :
  Catalog.applyPipeline (H := Sample.host)
    [Sample.alpha; Sample.beta; Sample.gamma] "" "all" "title-desc" =
  [Sample.gamma; Sample.beta; Sample.alpha].
Proof.
  refine (proj2 (title_sort_orders Sample.host sample_locale_order _)
                Sample.alpha Sample.beta Sample.gamma _ _ _);
    try reflexivity.
  cbn. lia.
Defined.

(** C4, as the specification has it, fails: the [switch] has no case
    ["title-asc"], so that key sorts as the default does, newest first, and
    Beta (added in February) comes out before Alpha (added in January). *)
Lemma title_asc_key_sorts_newest_first :
  Catalog.applyPipeline (H := Sample.host) [Sample.alpha; Sample.beta]
                        "" "all" "title-asc" =
    [Sample.beta; Sample.alpha] /\
  ~ StronglySorted (Spec.titleAscending (H := Sample.host))
      (Catalog.applyPipeline (H := Sample.host) [Sample.alpha; Sample.beta]
                             "" "all" "title-asc").
Proof.
  assert (E : Catalog.applyPipeline (H := Sample.host)
                [Sample.alpha; Sample.beta] "" "all" "title-asc" =
              [Sample.beta; Sample.alpha])
    by (vm_compute; reflexivity).
  split; [exact E|]. rewrite E. intros Hs.
  apply StronglySorted_inv in Hs as [_ Hd].
  apply Forall_inv in Hd. vm_compute in Hd. apply Hd. reflexivity.
Qed.

(** C3, as the scripts have it.  The pipeline of [applySortAndFilter] runs
    its stages in this order: first the text filter, with the test of the
    search engine, which neither scores nor reorders (it is a [filter], and
    the stored records stay as they are); then, unless the active folder is
    ["all"], the records whose folder is string-equal to the active folder;
    last the sort of what remains.  The result always holds the remaining
    records and no others; and whenever the key orders them (it is a title
    key, or every remaining [dateAdded] parses) the result is the remaining
    records sorted by the key: in the order of the key, those that the key
    does not tell apart in the order they had. *)
Theorem apply_order_of_operations (H : Host) (LO : LocaleOrder H) :
  (forall records term activeFolder sortKey,
      let remaining :=
        Spec.folderStage activeFolder (Spec.textStage term records) in
      let result :=
        Catalog.applyPipeline records term activeFolder sortKey in
      result = Catalog.sortVideos sortKey remaining /\
      Permutation remaining result /\
      (Spec.comparable sortKey remaining ->
       Spec.sortedBy sortKey remaining result)) /\
  (forall st,
      Catalog.filteredVideos (Catalog.applySortAndFilter st) =
      Catalog.applyPipeline (Catalog.videos st) (Catalog.boxTerm st)
        (Catalog.currentFolder st) (Catalog.currentSort st) /\
      Catalog.videos (Catalog.applySortAndFilter st) = Catalog.videos st) /\
  (forall term v, Spec.matches term v = Catalog.searchKeeps term v).
Proof.
  split; [|split].
  - intros records term activeFolder sortKey remaining result.
    unfold result. rewrite applyPipeline_stages. fold remaining.
    split; [reflexivity|]. split; [apply sortVideos_perm|].
    apply sortVideos_sortedBy.
  - intros st. split; reflexivity.
  - intros. symmetry. apply searchKeeps_matches.
Qed.

Lemma apply_order_of_operations_witness :
  Spec.sortedBy (H := Sample.host) "oldest"
    (Spec.folderStage "all"
       (Spec.textStage "a" [Sample.gamma; Sample.alpha; Sample.beta]))
    (Catalog.applyPipeline (H := Sample.host)
       [Sample.gamma; Sample.alpha; Sample.beta] "a" "all" "oldest").
Proof.
  refine (proj2 (proj2
            (proj1 (apply_order_of_operations Sample.host
                      sample_locale_order)
               [Sample.gamma; Sample.alpha; Sample.beta] "a" "all"
               "oldest")) _).
  right; right. repeat constructor; vm_compute; discriminate.
Defined.

(** C3, as the specification has it, fails in its last stage: of a record
    added in January, a record whose date does not parse, and a record
    added in February, in that order, the pipeline with the key ["newest"]
    keeps the order, the February record after the older January record;
    what remains after the filters is not sorted by the key. *)
Lemma unparseable_date_defeats_sort :
  let records := [Sample.alpha; Sample.undated; Sample.beta] in
  let remaining := Spec.folderStage "all" (Spec.textStage "" records) in
  let result :=
    Catalog.applyPipeline (H := Sample.host) records "" "all" "newest" in
  remaining = records /\
  result = [Sample.alpha; Sample.undated; Sample.beta] /\
  Spec.newerLater (H := Sample.host) result /\
  ~ Spec.sortedBy (H := Sample.host) "newest" remaining result.
Proof.
  cbv zeta.
  assert (E : Catalog.applyPipeline (H := Sample.host)
                [Sample.alpha; Sample.undated; Sample.beta] "" "all"
                "newest" =
              [Sample.alpha; Sample.undated; Sample.beta])
    by (vm_compute; reflexivity).
  assert (Hn : Spec.newerLater (H := Sample.host)
                 [Sample.alpha; Sample.undated; Sample.beta]).
  { exists [], Sample.alpha, [Sample.undated], Sample.beta, [],
           1704067200000, 1706745600000.
    repeat split; vm_compute; reflexivity. }
  split; [vm_compute; reflexivity|]. split; [exact E|]. rewrite E.
  split; [exact Hn|].
  intros [_ [Hs _]].
  exact (newestFirst_not_newerLater _ Hs Hn).
Qed.



(* ================================================================== *)
(** * The upload page and the playback page: URLs *)
(* ================================================================== *)

Section UrlFacts.
Context {H : Host}.

Import Uploader.

(** The kinds, by the predicates: Google Drive goes before YouTube, and
    YouTube before a direct video. *)
Lemma classify_cases (url : string) :
  classify url =
  if isValidGoogleDriveUrl url then GoogleDrive
  else if isValidYouTubeUrl url then YouTube
  else if isValidDirectVideoUrl url then DirectVideo
  else Unknown.
Proof.
  unfold classify, validateDriveUrl.
  destruct url as [|c url]; [reflexivity|]. cbn [JS.truthy JS.isEmpty negb].
  destruct (isValidGoogleDriveUrl (String c url)); [reflexivity|].
  destruct (isValidYouTubeUrl (String c url)); [reflexivity|].
  destruct (isValidDirectVideoUrl (String c url)); reflexivity.
Qed.

Lemma validateDriveUrl_classify (url : string) :
  fst (validateDriveUrl url) = true <-> classify url <> Unknown.
Proof.
  unfold classify, validateDriveUrl.
  destruct (negb (JS.truthy url)), (isValidGoogleDriveUrl url),
           (isValidYouTubeUrl url), (isValidDirectVideoUrl url);
    cbn; split; intros E; try reflexivity; try discriminate;
    exfalso; apply E; reflexivity.
Qed.

Lemma isValidDirectVideoUrl_rule (url : string) :
  isValidDirectVideoUrl url = Spec.directVideo url.
Proof.
  unfold isValidDirectVideoUrl, Spec.directVideo.
  destruct url as [|c url].
  - cbn. apply eq_sym, andb_false_r.
  - cbn [JS.truthy JS.isEmpty negb]. destruct (urlParses (String c url));
      reflexivity.
Qed.

End UrlFacts.

(** C6.  [convertToEmbedUrl] is a total function of the URL (nothing it
    calls can throw on a string), and its value goes by the kind of the
    URL: a Google Drive URL becomes the preview URL of its file id, a
    YouTube URL the embed URL of its video id, and the URL itself comes
    back when its kind is unknown (or direct video) and when no id can be
    extracted; the playback page's [convertGoogleDriveUrl] does the same
    for a file id. *)
Theorem embed_url_by_kind (H : Host) (url : string) :
  Uploader.convertToEmbedUrl url =
    match Uploader.classify url with
    | Uploader.GoogleDrive =>
        match Uploader.extractGoogleDriveFileId url with
        | Some fileId =>
            "https://drive.google.com/file/d/" ++ fileId ++ "/preview"
        | None => url
        end
    | Uploader.YouTube =>
        match Uploader.extractYouTubeVideoId url with
        | Some videoId => "https://www.youtube.com/embed/" ++ videoId
        | None => url
        end
    | Uploader.DirectVideo | Uploader.Unknown => url
    end /\
  Player.convertGoogleDriveUrl url =
    match Uploader.extractGoogleDriveFileId url with
    | Some fileId => "https://drive.google.com/file/d/" ++ fileId ++ "/preview"
    | None => url
    end.
Proof.
  split; [|reflexivity].
  rewrite classify_cases. unfold Uploader.convertToEmbedUrl.
  destruct (Uploader.isValidGoogleDriveUrl url); [reflexivity|].
  destruct (Uploader.isValidYouTubeUrl url); [reflexivity|].
  destruct (Uploader.isValidDirectVideoUrl url); reflexivity.
Qed.

(** The ids of the specification's examples. *)
Example extract_ids :
  Uploader.extractYouTubeVideoId "https://youtu.be/dQw4w9WgXcQ" =
    Some "dQw4w9WgXcQ" /\
  Uploader.extractGoogleDriveFileId
    "https://drive.google.com/file/d/1A2B3C/view" = Some "1A2B3C" /\
  Uploader.convertToEmbedUrl "https://drive.google.com/file/d/1A2B3C/view" =
    "https://drive.google.com/file/d/1A2B3C/preview" /\
  Uploader.convertToEmbedUrl "https://youtu.be/dQw4w9WgXcQ" =
    "https://www.youtube.com/embed/dQw4w9WgXcQ" /\
  Uploader.convertToEmbedUrl "https://drive.google.com/file/d/" =
    "https://drive.google.com/file/d/".
Proof. repeat split; vm_compute; reflexivity. Qed.

(** C7, as the scripts have it.  The direct-video test of the upload page
    holds exactly when the string parses as a URL and its lowercased form
    contains one of the eight extensions, anywhere; the kind reported is
    direct video exactly when, besides, the URL is neither a Google Drive
    nor a YouTube URL, which go first; and the test of the playback page
    is the containment alone, without parsing the URL. *)
Theorem direct_video_rule (H : Host) (url : string) :
  Uploader.isValidDirectVideoUrl url = Spec.directVideo url /\
  (Uploader.classify url = Uploader.DirectVideo <->
   Uploader.isValidGoogleDriveUrl url = false /\
   Uploader.isValidYouTubeUrl url = false /\
   Spec.directVideo url = true) /\
  Player.isDirectVideoUrl url =
    JS.includesAny (JS.toLowerCase url) Player.videoExtensions.
Proof.
  split; [apply isValidDirectVideoUrl_rule|]. split.
  - rewrite classify_cases, <- isValidDirectVideoUrl_rule.
    destruct (Uploader.isValidGoogleDriveUrl url);
      [split; [discriminate|intros [? _]; discriminate]|].
    destruct (Uploader.isValidYouTubeUrl url);
      [split; [discriminate|intros [_ [? _]]; discriminate]|].
    destruct (Uploader.isValidDirectVideoUrl url);
      [tauto|split; [discriminate|intros [_ [_ ?]]; discriminate]].
  - destruct url; reflexivity.
Qed.

(** The match is on a substring, not on a suffix, and in any case of the
    letters. *)
Example direct_video_substring :
  Uploader.classify (H := Sample.host) "https://example.com/a.MP4.txt" =
  Uploader.DirectVideo.
Proof. vm_compute. reflexivity. Qed.

(** C7, as the specification has it, fails on both pages: a YouTube URL
    that parses and contains [.mp4] is reported as YouTube, not as a direct
    video; and the playback page takes [clip.mp4], which does not parse as
    an absolute URL, for a direct video. *)
Lemma direct_video_not_exactly :
  ~ (forall url,
        Uploader.classify (H := Sample.host) url = Uploader.DirectVideo <->
        Spec.directVideo (H := Sample.host) url = true) /\
  ~ (forall url,
        Player.isDirectVideoUrl url = true <->
        Spec.directVideo (H := Sample.host) url = true).
Proof.
  split; intros Hall.
  - specialize (Hall "https://youtu.be/clip.mp4").
    assert (E : Uploader.classify (H := Sample.host)
                  "https://youtu.be/clip.mp4" = Uploader.YouTube)
      by (vm_compute; reflexivity).
    rewrite E in Hall. destruct Hall as [_ Hall].
    discriminate Hall. vm_compute. reflexivity.
  - specialize (Hall "clip.mp4"). destruct Hall as [Hall _].
    assert (E : Spec.directVideo (H := Sample.host) "clip.mp4" = false)
      by (vm_compute; reflexivity).
    rewrite E in Hall. discriminate Hall. vm_compute. reflexivity.
Qed.

(* ================================================================== *)
(** * The upload page: validating the form *)
(* ================================================================== *)

Section FormFacts.
Context {H : Host}.

Import Uploader.

(** [validateForm] answers [true] when none of its five checks rejects. *)
Lemma validateForm_checks (data : FormData) :
  fst (validateForm data) =
  ((JS.truthy (driveUrl data) && fst (validateDriveUrl (driveUrl data))) &&
   (JS.truthy (title data) &&
    negb (Nat.ltb (String.length (title data)) 3) &&
    negb (Nat.ltb 100 (String.length (title data)))) &&
   JS.truthy (folder data) &&
   negb (JS.truthy (description data) &&
         Nat.ltb 500 (String.length (description data))) &&
   negb (JS.truthy (thumbnailUrl data) &&
         negb (isValidImageUrl (thumbnailUrl data))))%bool.
Proof.
  unfold validateForm, reject.
  destruct (JS.truthy (driveUrl data)),
           (fst (validateDriveUrl (driveUrl data))),
           (JS.truthy (title data)),
           (Nat.ltb (String.length (title data)) 3),
           (Nat.ltb 100 (String.length (title data))),
           (JS.truthy (folder data)),
           (JS.truthy (description data) &&
            Nat.ltb 500 (String.length (description data)))%bool,
           (JS.truthy (thumbnailUrl data) &&
            negb (isValidImageUrl (thumbnailUrl data)))%bool;
    reflexivity.
Qed.

Lemma title_check (s : string) :
  (JS.truthy s && negb (Nat.ltb (String.length s) 3) &&
   negb (Nat.ltb 100 (String.length s)))%bool = true <->
  (3 <= String.length s <= 100)%nat.
Proof.
  destruct (Nat.ltb_spec (String.length s) 3),
           (Nat.ltb_spec 100 (String.length s)),
           s as [|c s]; cbn in *; split; intros; try lia; try discriminate;
    reflexivity.
Qed.

Lemma description_check (s : string) :
  negb (JS.truthy s && Nat.ltb 500 (String.length s)) = true <->
  (String.length s <= 500)%nat.
Proof.
  destruct (Nat.ltb_spec 500 (String.length s)), s as [|c s];
    cbn in *; split; intros; try lia; try discriminate; reflexivity.
Qed.

Lemma thumbnail_check (s : string) :
  negb (JS.truthy s && negb (isValidImageUrl s)) = true <->
  s = "" \/
  (urlParses s = true /\
   (JS.includesAny (JS.toLowerCase s) imageExtensions = true \/
    JS.includes s "thumbnail" = true)).
Proof.
  unfold isValidImageUrl.
  destruct s as [|c s]; [cbn; tauto|].
  cbn [JS.truthy JS.isEmpty negb andb].
  destruct (urlParses (String c s)).
  - rewrite negb_involutive, orb_true_iff.
    split; [intros E; right; tauto|].
    intros [E|[_ E]]; [discriminate|exact E].
  - cbn. split; [discriminate|].
    intros [E|[E _]]; discriminate.
Qed.

Lemma validateForm_accepts (data : FormData) :
  fst (validateForm data) = true <-> Spec.accepted data.
Proof.
  rewrite validateForm_checks. unfold Spec.accepted.
  rewrite !andb_true_iff.
  rewrite <- validateDriveUrl_classify, <- title_check,
          <- description_check, <- thumbnail_check, <- truthy_true.
  rewrite !andb_true_iff.
  assert (Hurl : fst (validateDriveUrl (driveUrl data)) = true ->
                 JS.truthy (driveUrl data) = true).
  { unfold validateDriveUrl.
    destruct (JS.truthy (driveUrl data)); [reflexivity|]. cbn. congruence. }
  tauto.
Qed.

End FormFacts.

(** C9.  [validateForm] accepts exactly the submissions with a video URL
    of kind Google Drive, YouTube or direct video; a title of 3 to 100 code
    units (the title as [getFormData] hands it over, trimmed); a
    description of at most 500; a thumbnail that is empty or parses as a URL
    and has one of the six image extensions in its lowercased form or
    contains ["thumbnail"]; and a folder that is not empty. *)
Theorem upload_validation (H : Host) :
  (forall data,
      fst (Uploader.validateForm data) = true <-> Spec.accepted data) /\
  (forall f,
      Uploader.accepts f = true <-> Spec.accepted (Uploader.getFormData f)) /\
  (forall f,
      Uploader.title (Uploader.getFormData f) =
      match Uploader.videoTitleInput f with
      | Some value => JS.trim value
      | None => ""
      end).
Proof.
  split; [|split].
  - apply validateForm_accepts.
  - intros f. apply validateForm_accepts.
  - reflexivity.
Qed.

(** The bounds on the sample form: a title of 2 is rejected, of 3 and of
    100 accepted, of 101 rejected; a description of 500 is accepted, of 501
    rejected. *)
Example upload_validation_bounds :
  Uploader.accepts (H := Sample.host) (Sample.form "ab" "") = false /\
  Uploader.accepts (H := Sample.host) (Sample.form "abc" "") = true /\
  Uploader.accepts (H := Sample.host)
    (Sample.form (Sample.letters 100) "") = true /\
  Uploader.accepts (H := Sample.host)
    (Sample.form (Sample.letters 101) "") = false /\
  Uploader.accepts (H := Sample.host)
    (Sample.form "abc" (Sample.letters 500)) = true /\
  Uploader.accepts (H := Sample.host)
    (Sample.form "abc" (Sample.letters 501)) = false.
Proof. repeat split; vm_compute; reflexivity. Qed.

(* ================================================================== *)
(** * More facts about strings *)
(* ================================================================== *)

Lemma append_nil_r (s : string) : s ++ "" = s.
Proof. induction s as [|c s IH]; simpl; [reflexivity|]. now rewrite IH. Qed.

Lemma append_assoc (a b c : string) : (a ++ b) ++ c = a ++ (b ++ c).
Proof. induction a as [|x a IH]; simpl; [reflexivity|]. now rewrite IH. Qed.

Lemma stripPrefix_iff (p s r : string) :
  JS.stripPrefix p s = Some r <-> s = p ++ r.
Proof.
  revert s. induction p as [|b p IH]; intros s; simpl.
  - split; [intros [= ->]; reflexivity|intros ->; reflexivity].
  - destruct s as [|a s]; [split; discriminate|].
    destruct (Ascii.eqb_spec a b) as [->|Hab].
    + rewrite IH. split; [intros ->; reflexivity|intros [= ->]; reflexivity].
    + split; [discriminate|]. intros [= E _]. contradiction.
Qed.

Lemma stripPrefix_app (p r : string) : JS.stripPrefix p (p ++ r) = Some r.
Proof. apply stripPrefix_iff. reflexivity. Qed.

Lemma startsWith_iff (s p : string) :
  JS.startsWith s p = true <-> exists r, s = p ++ r.
Proof.
  revert s. induction p as [|b p IH]; intros s.
  - rewrite startsWith_empty. split; [intros _; exists s; reflexivity|tauto].
  - destruct s as [|a s]; simpl.
    + split; [discriminate|intros [r E]; discriminate E].
    + rewrite andb_true_iff, IH, Ascii.eqb_eq. split.
      * intros [-> [r ->]]. exists r. reflexivity.
      * intros [r [= -> ->]]. split; [reflexivity|]. exists r. reflexivity.
Qed.

(** [includes]: the needle stands between two parts of the haystack. *)
Lemma includes_iff (s sub : string) :
  JS.includes s sub = true <-> exists a b, s = a ++ sub ++ b.
Proof.
  induction s as [|c s IH].
  - cbn [JS.includes]. rewrite orb_false_r, startsWith_iff. split.
    + intros [r E]. exists "", r. exact E.
    + intros [a [b E]]. destruct a as [|x a]; [|discriminate E].
      exists b. exact E.
  - cbn [JS.includes]. rewrite orb_true_iff, startsWith_iff, IH. split.
    + intros [[r E]|[a [b E]]].
      * exists "", r. exact E.
      * exists (String c a), b. simpl. now rewrite E.
    + intros [a [b E]]. destruct a as [|x a].
      * left. exists b. exact E.
      * right. injection E as _ E. exists a, b. exact E.
Qed.

Lemma includes_app (a sub b : string) : JS.includes (a ++ sub ++ b) sub = true.
Proof. apply includes_iff. exists a, b. reflexivity. Qed.

Lemma includes_trans (s m t : string) :
  JS.includes s m = true -> JS.includes m t = true -> JS.includes s t = true.
Proof.
  rewrite !includes_iff. intros [a [b ->]] [c [d ->]].
  exists (a ++ c), (d ++ b). now rewrite !append_assoc.
Qed.

Lemma includes_left (s t sub : string) :
  JS.includes s sub = true -> JS.includes (s ++ t) sub = true.
Proof.
  rewrite !includes_iff. intros [a [b ->]].
  exists a, (b ++ t). now rewrite !append_assoc.
Qed.

Lemma includes_right (s t sub : string) :
  JS.includes t sub = true -> JS.includes (s ++ t) sub = true.
Proof.
  rewrite !includes_iff. intros [a [b ->]].
  exists (s ++ a), b. now rewrite !append_assoc.
Qed.

Lemma toLowerCase_app (a b : string) :
  JS.toLowerCase (a ++ b) = JS.toLowerCase a ++ JS.toLowerCase b.
Proof. induction a as [|c a IH]; simpl; [reflexivity|]. now rewrite IH. Qed.

(** Lowercasing keeps containment. *)
Lemma includes_toLowerCase (s sub : string) :
  JS.includes s sub = true ->
  JS.includes (JS.toLowerCase s) (JS.toLowerCase sub) = true.
Proof.
  rewrite !includes_iff. intros [a [b ->]].
  exists (JS.toLowerCase a), (JS.toLowerCase b).
  now rewrite !toLowerCase_app.
Qed.

Lemma lowerChar_idempotent (c : ascii) :
  JS.lowerChar (JS.lowerChar c) = JS.lowerChar c.
Proof. destruct c as [[] [] [] [] [] [] [] []]; reflexivity. Qed.

Lemma toLowerCase_idempotent (s : string) :
  JS.toLowerCase (JS.toLowerCase s) = JS.toLowerCase s.
Proof.
  induction s as [|c s IH]; simpl; [reflexivity|].
  now rewrite lowerChar_idempotent, IH.
Qed.

Lemma toLowerCase_length (s : string) :
  String.length (JS.toLowerCase s) = String.length s.
Proof. induction s as [|c s IH]; simpl; [reflexivity|]. now rewrite IH. Qed.

Lemma toLowerCase_truthy (s : string) :
  JS.truthy (JS.toLowerCase s) = JS.truthy s.
Proof. destruct s; reflexivity. Qed.

(** ** [trim] *)

Lemma trimStart_suffix (s : string) : exists a, s = a ++ JS.trimStart s.
Proof.
  induction s as [|c s [a IH]]; simpl; [exists ""; reflexivity|].
  destruct (JS.isWhiteSpace c).
  - exists (String c a). simpl. now rewrite <- IH.
  - exists "". reflexivity.
Qed.

Lemma trimEnd_prefix (s : string) : exists b, s = JS.trimEnd s ++ b.
Proof.
  induction s as [|c s [b IH]]; simpl; [exists ""; reflexivity|].
  destruct (JS.isWhiteSpace c && JS.isEmpty (JS.trimEnd s))%bool eqn:E.
  - exists (String c s). reflexivity.
  - exists b. simpl. now rewrite <- IH.
Qed.

(** What [trim] leaves is a part of what it was given. *)
Lemma includes_trim (s : string) : JS.includes s (JS.trim s) = true.
Proof.
  apply includes_iff. unfold JS.trim.
  destruct (trimStart_suffix s) as [a Ha].
  destruct (trimEnd_prefix (JS.trimStart s)) as [b Hb].
  exists a, b. rewrite <- Hb. exact Ha.
Qed.

Lemma trimEnd_idempotent (s : string) : JS.trimEnd (JS.trimEnd s) = JS.trimEnd s.
Proof.
  induction s as [|c s IH]; simpl; [reflexivity|].
  destruct (JS.isWhiteSpace c && JS.isEmpty (JS.trimEnd s))%bool eqn:E;
    [reflexivity|].
  simpl. rewrite IH, E. reflexivity.
Qed.

Lemma trimEnd_head (s : string) (c : ascii) (r : string) :
  s = String c r -> JS.isWhiteSpace c = false ->
  exists r', JS.trimEnd s = String c r'.
Proof.
  intros -> Hc. simpl. rewrite Hc. simpl. eexists. reflexivity.
Qed.

Lemma trimStart_fixed (s : string) :
  match s with
  | EmptyString => True
  | String c _ => JS.isWhiteSpace c = false
  end -> JS.trimStart s = s.
Proof. destruct s as [|c s]; simpl; [reflexivity|]. now intros ->. Qed.

(** [trim] is idempotent. *)
Lemma trim_idempotent (s : string) : JS.trim (JS.trim s) = JS.trim s.
Proof.
  unfold JS.trim.
  assert (Hs : JS.trimStart (JS.trimEnd (JS.trimStart s)) =
               JS.trimEnd (JS.trimStart s)).
  { apply trimStart_fixed.
    destruct (JS.trimStart s) as [|c r] eqn:E; [exact I|].
    pose proof (trimStart_head _ _ _ E) as Hc.
    destruct (trimEnd_head (String c r) c r eq_refl Hc) as [r' ->].
    exact Hc. }
  rewrite Hs. apply trimEnd_idempotent.
Qed.




(* ================================================================== *)
(** * The ids in the URLs *)
(* ================================================================== *)

Lemma every_app (f : ascii -> bool) (a b : string) :
  JSMore.every f (a ++ b) = (JSMore.every f a && JSMore.every f b)%bool.
Proof.
  induction a as [|c a IH]; simpl; [reflexivity|].
  rewrite IH. apply andb_assoc.
Qed.

(** A haystack of passing code units holds passing needles only. *)
Lemma includes_every (f : ascii -> bool) (s sub : string) :
  JSMore.every f s = true -> JS.includes s sub = true ->
  JSMore.every f sub = true.
Proof.
  intros Hs Hi. apply includes_iff in Hi as [a [b ->]].
  rewrite !every_app, !andb_true_iff in Hs. tauto.
Qed.

Lemma takeWhile_every (f : ascii -> bool) (s : string) :
  JSMore.every f (JS.takeWhile f s) = true.
Proof.
  induction s as [|c s IH]; simpl; [reflexivity|].
  destruct (f c) eqn:E; simpl; [now rewrite E|reflexivity].
Qed.

Lemma takeWhile_prefix (f : ascii -> bool) (s : string) :
  exists rest, s = JS.takeWhile f s ++ rest.
Proof.
  induction s as [|c s [rest IH]]; simpl; [exists ""; reflexivity|].
  destruct (f c).
  - exists rest. simpl. now rewrite <- IH.
  - exists (String c s). reflexivity.
Qed.

(** The run stops where the string ends or a code unit fails. *)
Lemma takeWhile_app (f : ascii -> bool) (a b : string) :
  JSMore.every f a = true ->
  match b with
  | EmptyString => True
  | String c _ => f c = false
  end ->
  JS.takeWhile f (a ++ b) = a.
Proof.
  intros Ha Hb. induction a as [|c a IH]; simpl in *.
  - destruct b as [|c b]; simpl; [reflexivity|]. now rewrite Hb.
  - apply andb_prop in Ha as [Hc Ha]. rewrite Hc, IH by exact Ha.
    reflexivity.
Qed.

Lemma idRun_Some (r run : string) :
  JS.idRun r = Some run ->
  JSMore.isId run = true /\ exists rest, r = run ++ rest.
Proof.
  unfold JS.idRun, JSMore.isId.
  destruct (JS.truthy (JS.takeWhile JS.isIdChar r)) eqn:E; [|discriminate].
  intros [= <-]. rewrite E, takeWhile_every. split; [reflexivity|].
  apply takeWhile_prefix.
Qed.

Lemma idRun_app (run rest : string) :
  JSMore.isId run = true ->
  match rest with
  | EmptyString => True
  | String c _ => JS.isIdChar c = false
  end ->
  JS.idRun (run ++ rest) = Some run.
Proof.
  unfold JSMore.isId, JS.idRun. intros Hid Hrest.
  apply andb_prop in Hid as [Ht He].
  rewrite takeWhile_app by assumption. now rewrite Ht.
Qed.

Lemma idRun_self (run : string) :
  JSMore.isId run = true -> JS.idRun run = Some run.
Proof.
  intros Hid. rewrite <- (append_nil_r run) at 1.
  apply idRun_app; [exact Hid|exact I].
Qed.

Lemma litThenId_Some (lit r run : string) :
  JS.litThenId lit r = Some run ->
  JSMore.isId run = true /\ exists rest, r = lit ++ run ++ rest.
Proof.
  unfold JS.litThenId.
  destruct (JS.stripPrefix lit r) as [r'|] eqn:E; [|discriminate].
  apply stripPrefix_iff in E. subst r. intros Hrun.
  apply idRun_Some in Hrun as [Hid [rest ->]].
  split; [exact Hid|]. exists rest. reflexivity.
Qed.

(** A match is a match at some position. *)
Lemma firstMatch_Some (at_ : string -> option string) (s x : string) :
  JS.firstMatch at_ s = Some x ->
  exists a b, s = a ++ b /\ at_ b = Some x.
Proof.
  induction s as [|c s IH]; simpl.
  - destruct (at_ "") eqn:E; [|discriminate].
    intros [= <-]. exists "", "". split; [reflexivity|exact E].
  - destruct (at_ (String c s)) eqn:E.
    + intros [= <-]. exists "", (String c s). split; [reflexivity|exact E].
    + intros Hm. destruct (IH Hm) as [a [b [-> Hb]]].
      exists (String c a), b. split; [reflexivity|exact Hb].
Qed.

Lemma dotStarThen_Some (at_ : string -> option string) (s x : string) :
  JS.dotStarThen at_ s = Some x ->
  exists a b, s = a ++ b /\ at_ b = Some x.
Proof.
  induction s as [|c s IH]; simpl.
  - intros E. exists "", "". split; [reflexivity|exact E].
  - destruct (JS.isLineTerminator c).
    + intros E. exists "", (String c s). split; [reflexivity|exact E].
    + destruct (JS.dotStarThen at_ s) eqn:Es.
      * intros [= <-]. destruct (IH eq_refl) as [a [b [-> Hb]]].
        exists (String c a), b. split; [reflexivity|exact Hb].
      * intros E. exists "", (String c s). split; [reflexivity|exact E].
Qed.

Lemma firstSome_Some {A : Type} (l : list (option A)) (x : A) :
  JS.firstSome l = Some x -> In (Some x) l.
Proof.
  induction l as [|[a|] l IH]; simpl; [discriminate| |].
  - intros [= <-]. left. reflexivity.
  - intros E. right. apply IH, E.
Qed.

Lemma extractGoogleDriveFileId_Some (url fileId : string) :
  Uploader.extractGoogleDriveFileId url = Some fileId ->
  JSMore.isId fileId = true /\
  JS.includes url ("/file/d/" ++ fileId) = true.
Proof.
  unfold Uploader.extractGoogleDriveFileId. intros E.
  apply firstMatch_Some in E as [a [b [-> E]]].
  apply litThenId_Some in E as [Hid [rest ->]].
  split; [exact Hid|]. apply includes_iff. exists a, rest.
  now rewrite append_assoc.
Qed.

Lemma extractYouTubeVideoId_Some (url videoId : string) :
  Uploader.extractYouTubeVideoId url = Some videoId ->
  JSMore.isId videoId = true /\ JS.includes url videoId = true.
Proof.
  unfold Uploader.extractYouTubeVideoId. intros E.
  apply firstSome_Some in E. destruct E as [E|[E|[]]].
  - apply firstMatch_Some in E as [a [b [-> E]]].
    apply firstSome_Some in E.
    destruct E as [E|[E|[E|[]]]];
      apply litThenId_Some in E as [Hid [rest ->]];
      (split; [exact Hid|]); apply includes_right, includes_right,
      includes_left, includes_refl.
  - apply firstMatch_Some in E as [a [b [-> E]]].
    destruct (JS.stripPrefix "youtube.com/watch?" b) as [r|] eqn:Er;
      [|discriminate].
    apply stripPrefix_iff in Er. subst b.
    apply dotStarThen_Some in E as [c [d [-> E]]].
    apply litThenId_Some in E as [Hid [rest ->]].
    split; [exact Hid|].
    apply includes_right, includes_right, includes_right, includes_right,
      includes_left, includes_refl.
Qed.

(** X1.  What the two extractors return is an id: not empty, made of
    letters, digits, [_] and [-] only, and a part of the URL (for Google
    Drive, the part right after [/file/d/]). *)
Theorem extracted_ids_well_formed (url fileId : string) :
  (Uploader.extractGoogleDriveFileId url = Some fileId ->
   fileId <> "" /\ JSMore.every JS.isIdChar fileId = true /\
   JS.includes url ("/file/d/" ++ fileId) = true) /\
  (Uploader.extractYouTubeVideoId url = Some fileId ->
   fileId <> "" /\ JSMore.every JS.isIdChar fileId = true /\
   JS.includes url fileId = true).
Proof.
  split; intros E.
  - apply extractGoogleDriveFileId_Some in E as [Hid Hi].
    apply andb_prop in Hid as [Ht He]. apply truthy_true in Ht. tauto.
  - apply extractYouTubeVideoId_Some in E as [Hid Hi].
    apply andb_prop in Hid as [Ht He]. apply truthy_true in Ht. tauto.
Qed.

Lemma extracted_ids_well_formed_witness :
  JSMore.every JS.isIdChar "1A2B3C" = true.
Proof.
  refine (proj1 (proj2 (proj1 (extracted_ids_well_formed
            "https://drive.google.com/file/d/1A2B3C/view" "1A2B3C") _))).
  reflexivity.
Defined.

(* ================================================================== *)
(** * Embed URLs *)
(* ================================================================== *)

Lemma isId_no_dot (s sub : string) :
  JSMore.isId s = true -> JSMore.every JS.isIdChar sub = false ->
  JS.includes s sub = false.
Proof.
  intros Hid Hsub. apply andb_prop in Hid as [_ He].
  destruct (JS.includes s sub) eqn:E; [|reflexivity].
  rewrite (includes_every _ _ _ He E) in Hsub. discriminate.
Qed.

Lemma preview_is_drive (fileId : string) :
  JSMore.isId fileId = true ->
  Uploader.isValidGoogleDriveUrl
    ("https://drive.google.com/file/d/" ++ fileId ++ "/preview") = true /\
  Uploader.extractGoogleDriveFileId
    ("https://drive.google.com/file/d/" ++ fileId ++ "/preview") =
  Some fileId.
Proof.
  intros Hid. split.
  - unfold Uploader.isValidGoogleDriveUrl.
    assert (E1 : JS.includes
                   ("https://drive.google.com/file/d/" ++ fileId ++ "/preview")
                   "drive.google.com" = true).
    { apply includes_iff.
      exists "https://", ("/file/d/" ++ fileId ++ "/preview"). reflexivity. }
    assert (E2 : JS.includes
                   ("https://drive.google.com/file/d/" ++ fileId ++ "/preview")
                   "/file/d/" = true).
    { apply includes_iff.
      exists "https://drive.google.com", (fileId ++ "/preview").
      reflexivity. }
    rewrite E1, E2. reflexivity.
  - unfold Uploader.extractGoogleDriveFileId.
    cbn -[JS.idRun].
    rewrite (idRun_app fileId "/preview" Hid eq_refl). reflexivity.
Qed.

Lemma embed_is_youtube (videoId : string) :
  JSMore.isId videoId = true ->
  Uploader.isValidGoogleDriveUrl
    ("https://www.youtube.com/embed/" ++ videoId) = false /\
  Uploader.isValidYouTubeUrl
    ("https://www.youtube.com/embed/" ++ videoId) = true /\
  Uploader.extractYouTubeVideoId
    ("https://www.youtube.com/embed/" ++ videoId) = Some videoId.
Proof.
  intros Hid. split; [|split].
  - unfold Uploader.isValidGoogleDriveUrl.
    assert (E : JS.includes ("https://www.youtube.com/embed/" ++ videoId)
                            "drive.google.com" = false).
    { cbn [append].
      repeat match goal with
             | |- JS.includes (String ?c ?s) ?sub = false =>
                 change ((JS.startsWith (String c s) sub ||
                          JS.includes s sub)%bool = false);
                 cbn [JS.startsWith Ascii.eqb Bool.eqb andb orb]
             end.
      apply isId_no_dot; [exact Hid|reflexivity]. }
    rewrite E. reflexivity.
  - reflexivity.
  - unfold Uploader.extractYouTubeVideoId.
    cbn -[JS.idRun]. rewrite idRun_self by exact Hid. reflexivity.
Qed.

(** X2.  Round trip: from the preview URL built on an id the Google Drive
    extractor reads that id back, and from the embed URL the YouTube
    extractor does; embed URLs are fixed by [convertToEmbedUrl]. *)
Theorem embed_round_trip (fileId : string) :
  JSMore.isId fileId = true ->
  Uploader.extractGoogleDriveFileId
    ("https://drive.google.com/file/d/" ++ fileId ++ "/preview") =
    Some fileId /\
  Uploader.extractYouTubeVideoId
    ("https://www.youtube.com/embed/" ++ fileId) = Some fileId /\
  Uploader.convertToEmbedUrl
    ("https://drive.google.com/file/d/" ++ fileId ++ "/preview") =
    "https://drive.google.com/file/d/" ++ fileId ++ "/preview" /\
  Uploader.convertToEmbedUrl ("https://www.youtube.com/embed/" ++ fileId) =
    "https://www.youtube.com/embed/" ++ fileId.
Proof.
  intros Hid.
  destruct (preview_is_drive fileId Hid) as [Hd Hx].
  destruct (embed_is_youtube fileId Hid) as [Hnd [Hy Hv]].
  split; [exact Hx|]. split; [exact Hv|]. split.
  - unfold Uploader.convertToEmbedUrl. rewrite Hd, Hx. reflexivity.
  - unfold Uploader.convertToEmbedUrl. rewrite Hnd, Hy, Hv. reflexivity.
Qed.

Lemma embed_round_trip_witness :
  Uploader.extractGoogleDriveFileId
    ("https://drive.google.com/file/d/" ++ "1A2B3C" ++ "/preview") =
  Some "1A2B3C".
Proof.
  exact (proj1 (embed_round_trip "1A2B3C" eq_refl)).
Defined.

(** X3.  [convertToEmbedUrl] is idempotent: converting a converted URL
    changes nothing, whatever the URL. *)
Theorem convertToEmbedUrl_idempotent (url : string) :
  Uploader.convertToEmbedUrl (Uploader.convertToEmbedUrl url) =
  Uploader.convertToEmbedUrl url.
Proof.
  assert (Hfix : forall u, Uploader.convertToEmbedUrl url = u ->
                           Uploader.convertToEmbedUrl u = u ->
                           Uploader.convertToEmbedUrl
                             (Uploader.convertToEmbedUrl url) =
                           Uploader.convertToEmbedUrl url)
    by (intros u -> Hu; exact Hu).
  unfold Uploader.convertToEmbedUrl at 2 3.
  destruct (Uploader.isValidGoogleDriveUrl url) eqn:Hd.
  - destruct (Uploader.extractGoogleDriveFileId url) as [fileId|] eqn:Hx.
    + apply extractGoogleDriveFileId_Some in Hx as [Hid _].
      exact (proj1 (proj2 (proj2 (embed_round_trip fileId Hid)))).
    + unfold Uploader.convertToEmbedUrl. rewrite Hd, Hx. reflexivity.
  - destruct (Uploader.isValidYouTubeUrl url) eqn:Hy.
    + destruct (Uploader.extractYouTubeVideoId url) as [videoId|] eqn:Hx.
      * apply extractYouTubeVideoId_Some in Hx as [Hid _].
        exact (proj2 (proj2 (proj2 (embed_round_trip videoId Hid)))).
      * unfold Uploader.convertToEmbedUrl. rewrite Hd, Hy, Hx. reflexivity.
    + unfold Uploader.convertToEmbedUrl. rewrite Hd, Hy. reflexivity.
Qed.

(* ================================================================== *)
(** * From the upload page to the playback page *)
(* ================================================================== *)

Lemma in_afterLit (p r' : string) (rs : list string) :
  In r' (JS.afterLit p rs) <-> exists r, In r rs /\ r = p ++ r'.
Proof.
  unfold JS.afterLit. rewrite in_flat_map. split.
  - intros [r [Hr Hin]]. exists r. split; [exact Hr|].
    destruct (JS.stripPrefix p r) as [x|] eqn:E; [|contradiction].
    destruct Hin as [<-|[]]. apply stripPrefix_iff, E.
  - intros [r [Hr ->]]. exists (p ++ r'). split; [exact Hr|].
    rewrite stripPrefix_app. left. reflexivity.
Qed.

(** Every remainder that the pattern's optional groups leave is the end
    of the string. *)
Lemma afterLit_ends (url p : string) (rs : list string) :
  (forall r, In r rs -> exists a, url = a ++ r) ->
  forall r, In r (JS.afterLit p rs) -> exists a, url = a ++ r.
Proof.
  intros Hrs r' Hin. apply in_afterLit in Hin as [r [Hr ->]].
  destruct (Hrs _ Hr) as [a ->]. exists (a ++ p). now rewrite append_assoc.
Qed.

Lemma afterOpt_ends (url : string) (g : list string -> list string)
      (rs : list string) :
  (forall r, In r rs -> exists a, url = a ++ r) ->
  (forall r, In r (g rs) -> exists a, url = a ++ r) ->
  forall r, In r (JS.afterOpt g rs) -> exists a, url = a ++ r.
Proof.
  intros Hrs Hg r Hin. unfold JS.afterOpt in Hin.
  apply in_app_or in Hin as [Hin|Hin]; auto.
Qed.

(** A URL that the YouTube pattern matches names one of its two hosts. *)
Lemma isValidYouTubeUrl_host (url : string) :
  Uploader.isValidYouTubeUrl url = true ->
  (JS.includes url "youtube.com" || JS.includes url "youtu.be")%bool = true.
Proof.
  unfold Uploader.isValidYouTubeUrl. intros E.
  apply existsb_exists in E as [r [Hin _]].
  apply in_afterLit in Hin as [r3 [Hin ->]].
  set (scheme := fun rs =>
         JS.afterLit "://" (JS.afterOpt (JS.afterLit "s")
                                        (JS.afterLit "http" rs))) in *.
  assert (H1 : forall r, In r (JS.afterOpt scheme [url]) ->
                         exists a, url = a ++ r).
  { apply afterOpt_ends.
    - intros r0 [<-|[]]. exists "". reflexivity.
    - unfold scheme. apply afterLit_ends, afterOpt_ends;
        [|apply afterLit_ends];
        apply afterLit_ends; intros r0 [<-|[]]; exists ""; reflexivity. }
  assert (H2 : forall r,
             In r (JS.afterOpt (JS.afterLit "www.")
                               (JS.afterOpt scheme [url])) ->
             exists a, url = a ++ r).
  { apply afterOpt_ends; [exact H1|]. apply afterLit_ends, H1. }
  apply in_app_or in Hin as [Hin|Hin];
    apply in_afterLit in Hin as [r2 [Hin ->]];
    destruct (H2 _ Hin) as [a ->]; apply orb_true_iff.
  - left. apply includes_iff. exists a, ("/" ++ r). reflexivity.
  - right. apply includes_iff. exists a, ("/" ++ r). reflexivity.
Qed.

Lemma isValidGoogleDriveUrl_parts (url : string) :
  Uploader.isValidGoogleDriveUrl url = true ->
  JS.truthy url = true /\ JS.includes url "drive.google.com" = true.
Proof.
  unfold Uploader.isValidGoogleDriveUrl. rewrite !andb_true_iff. tauto.
Qed.

(** On a Google Drive URL the converted URL is a Google Drive URL that
    the playback page leaves as it is. *)
Lemma converted_drive (url : string) :
  Uploader.isValidGoogleDriveUrl url = true ->
  Player.isGoogleDriveUrl (Uploader.convertToEmbedUrl url) = true /\
  Player.convertGoogleDriveUrl (Uploader.convertToEmbedUrl url) =
  Uploader.convertToEmbedUrl url.
Proof.
  intros Hd. unfold Uploader.convertToEmbedUrl. rewrite Hd.
  destruct (Uploader.extractGoogleDriveFileId url) as [fileId|] eqn:Hx.
  - apply extractGoogleDriveFileId_Some in Hx as [Hid _].
    destruct (preview_is_drive fileId Hid) as [Hp Hx].
    apply isValidGoogleDriveUrl_parts in Hp as [Ht Hi].
    unfold Player.isGoogleDriveUrl, Player.convertGoogleDriveUrl.
    rewrite Ht, Hi.
    change (JS.firstMatch (JS.litThenId "/file/d/"))
      with Uploader.extractGoogleDriveFileId.
    rewrite Hx. split; reflexivity.
  - apply isValidGoogleDriveUrl_parts in Hd as [Ht Hi].
    unfold Player.isGoogleDriveUrl, Player.convertGoogleDriveUrl.
    rewrite Ht, Hi.
    change (JS.firstMatch (JS.litThenId "/file/d/"))
      with Uploader.extractGoogleDriveFileId.
    rewrite Hx. split; reflexivity.
Qed.

Lemma converted_youtube (url : string) :
  Uploader.isValidGoogleDriveUrl url = false ->
  Uploader.isValidYouTubeUrl url = true ->
  Player.isYouTubeUrl (Uploader.convertToEmbedUrl url) = true.
Proof.
  intros Hd Hy. unfold Uploader.convertToEmbedUrl. rewrite Hd, Hy.
  destruct (Uploader.extractYouTubeVideoId url) as [videoId|] eqn:Hx.
  - unfold Player.isYouTubeUrl.
    assert (E : JS.includes ("https://www.youtube.com/embed/" ++ videoId)
                            "youtube.com" = true).
    { apply includes_iff. exists "https://www.", ("/embed/" ++ videoId).
      reflexivity. }
    rewrite E. reflexivity.
  - unfold Player.isYouTubeUrl. rewrite (isValidYouTubeUrl_host url Hy).
    destruct url; [discriminate Hy|reflexivity].
Qed.

Lemma converted_direct {H : Host} (url : string) :
  Uploader.isValidGoogleDriveUrl url = false ->
  Uploader.isValidYouTubeUrl url = false ->
  Uploader.isValidDirectVideoUrl url = true ->
  Player.isDirectVideoUrl (Uploader.convertToEmbedUrl url) = true.
Proof.
  intros Hd Hy Hv. unfold Uploader.convertToEmbedUrl. rewrite Hd, Hy.
  unfold Uploader.isValidDirectVideoUrl in Hv.
  unfold Player.isDirectVideoUrl.
  destruct (negb (JS.truthy url)); [discriminate|].
  destruct (urlParses url); [exact Hv|discriminate].
Qed.

(** X4.  A submission that [validateForm] accepts gives a record that the
    playback page can play: [renderVideoPlayer] never falls back to its
    "Unable to load video" box for it.  When the URL is of kind Google
    Drive, the player is the Drive frame on the stored URL, and both pages
    label the record "Google Drive". *)
Theorem accepted_upload_is_playable (H : Host) (data : Uploader.FormData)
        (videoId dateAdded : string) :
  fst (Uploader.validateForm data) = true ->
  let v := UploadPage.showUploadInstructions videoId dateAdded data in
  (forall href,
      PlaybackPage.renderVideoPlayer v <> PlaybackPage.Unsupported href) /\
  (Uploader.classify (Uploader.driveUrl data) = Uploader.GoogleDrive ->
   PlaybackPage.renderVideoPlayer v =
     PlaybackPage.DriveFrame (Catalog.videoUrl v) /\
   PlaybackPage.getVideoSource v = "Google Drive" /\
   CatalogPage.getVideoSource v = "Google Drive").
Proof.
  intros Hok v.
  apply validateForm_accepts in Hok as [Hkind _].
  rewrite classify_cases in Hkind.
  set (url := Uploader.driveUrl data) in *.
  set (c := Uploader.convertToEmbedUrl url).
  assert (Hv : JSMore.orElse (Catalog.videoUrl v) (Catalog.driveUrl v) = c).
  { unfold v, UploadPage.showUploadInstructions, JSMore.orElse. cbn.
    fold url. fold c. destruct (JS.truthy c); reflexivity. }
  split.
  - intros href. unfold PlaybackPage.renderVideoPlayer. rewrite Hv.
    destruct (Uploader.isValidGoogleDriveUrl url) eqn:Hd.
    + destruct (converted_drive url Hd) as [Hg _]. fold c in Hg.
      rewrite Hg. discriminate.
    + destruct (Player.isGoogleDriveUrl c); [discriminate|].
      destruct (Uploader.isValidYouTubeUrl url) eqn:Hy.
      * unfold c. rewrite (converted_youtube url Hd Hy). discriminate.
      * destruct (Player.isYouTubeUrl c); [discriminate|].
        destruct (Uploader.isValidDirectVideoUrl url) eqn:Hdv;
          [|congruence].
        unfold c. rewrite (converted_direct url Hd Hy Hdv). discriminate.
  - intros Hdrive. rewrite classify_cases in Hdrive.
    destruct (Uploader.isValidGoogleDriveUrl url) eqn:Hd.
    + destruct (converted_drive url Hd) as [Hg Hc]. fold c in Hg, Hc.
      assert (Hi : JS.includes c "drive.google.com" = true).
      { unfold Player.isGoogleDriveUrl in Hg.
        apply andb_prop in Hg. tauto. }
      unfold PlaybackPage.renderVideoPlayer, PlaybackPage.getVideoSource,
        CatalogPage.getVideoSource.
      rewrite Hv, Hg, Hc.
      change (Catalog.driveUrl v) with c. change (Catalog.videoUrl v) with c.
      rewrite Hi. repeat split.
    + destruct (Uploader.isValidYouTubeUrl url);
        [discriminate|].
      destruct (Uploader.isValidDirectVideoUrl url); discriminate.
Qed.

Lemma accepted_upload_is_playable_witness :
  PlaybackPage.renderVideoPlayer
    (UploadPage.showUploadInstructions "video_1" "2024-01-01"
       (Uploader.getFormData (Sample.form "abc" ""))) <>
  PlaybackPage.Unsupported "https://example.com/movie.mp4".
Proof.
  refine (proj1 (accepted_upload_is_playable Sample.host
                   (Uploader.getFormData (Sample.form "abc" ""))
                   "video_1" "2024-01-01" _)
                "https://example.com/movie.mp4").
  vm_compute. reflexivity.
Defined.

(* ================================================================== *)
(** * Thumbnails *)
(* ================================================================== *)

Lemma attempt_mark (mark : string) (newSrc : string -> string)
      (videos : list Catalog.Video) (img : CatalogPage.Img) :
  CatalogPage.fallbackAttempted (CatalogPage.attempt mark newSrc videos img) =
  Some mark.
Proof.
  unfold CatalogPage.attempt.
  destruct (CatalogPage.fallbackFileId videos _); reflexivity.
Qed.

(** With a mark other than "1" in place, the handler goes for the
    placeholder and takes itself off the image. *)
Lemma handleThumbnailError_last (videos : list Catalog.Video)
      (img : CatalogPage.Img) (mark : string) :
  CatalogPage.fallbackAttempted img = Some mark ->
  JS.truthy mark = true -> String.eqb mark "1" = false ->
  CatalogPage.handleThumbnailError videos img = CatalogPage.usePlaceholder img.
Proof.
  intros Hm Ht H1. unfold CatalogPage.handleThumbnailError.
  rewrite Hm, Ht, H1. reflexivity.
Qed.

Lemma handleThumbnailError_second (videos : list Catalog.Video)
      (img : CatalogPage.Img) :
  CatalogPage.fallbackAttempted img = Some "1" ->
  CatalogPage.fallbackAttempted (CatalogPage.handleThumbnailError videos img) =
  Some "2".
Proof.
  intros Hm. unfold CatalogPage.handleThumbnailError. rewrite Hm. cbn.
  apply attempt_mark.
Qed.

Lemma handleThumbnailError_first (videos : list Catalog.Video)
      (img : CatalogPage.Img) :
  match CatalogPage.fallbackAttempted img with
  | None => True
  | Some mark => JS.truthy mark = false
  end ->
  CatalogPage.fallbackAttempted (CatalogPage.handleThumbnailError videos img) =
  Some "1".
Proof.
  unfold CatalogPage.handleThumbnailError.
  destruct (CatalogPage.fallbackAttempted img) as [mark|].
  - intros ->. cbn. apply attempt_mark.
  - intros _. apply attempt_mark.
Qed.

(** X5.  The thumbnail fallback ends: whatever the image and the records,
    after three load errors in a row the image shows the placeholder and
    has no error handler left, so a missing placeholder cannot start a
    loop. *)
Theorem thumbnail_fallback_ends (videos : list Catalog.Video)
        (img : CatalogPage.Img) :
  let img3 :=
    CatalogPage.handleThumbnailError videos
      (CatalogPage.handleThumbnailError videos
         (CatalogPage.handleThumbnailError videos img)) in
  CatalogPage.src img3 = CatalogPage.placeholder /\
  CatalogPage.onerror img3 = false.
Proof.
  cbv zeta.
  set (img1 := CatalogPage.handleThumbnailError videos img).
  set (img2 := CatalogPage.handleThumbnailError videos img1).
  assert (Hlast : forall i mark,
             CatalogPage.fallbackAttempted i = Some mark ->
             JS.truthy mark = true -> String.eqb mark "1" = false ->
             CatalogPage.src (CatalogPage.handleThumbnailError videos i) =
               CatalogPage.placeholder /\
             CatalogPage.onerror (CatalogPage.handleThumbnailError videos i) =
               false /\
             CatalogPage.fallbackAttempted
               (CatalogPage.handleThumbnailError videos i) = Some mark).
  { intros i mark Hm Ht H1.
    rewrite (handleThumbnailError_last videos i mark Hm Ht H1).
    cbn. auto. }
  assert (Hfrom1 : forall i,
             CatalogPage.fallbackAttempted i = Some "1" ->
             CatalogPage.src
               (CatalogPage.handleThumbnailError videos
                  (CatalogPage.handleThumbnailError videos i)) =
               CatalogPage.placeholder /\
             CatalogPage.onerror
               (CatalogPage.handleThumbnailError videos
                  (CatalogPage.handleThumbnailError videos i)) = false).
  { intros i Hi.
    pose proof (handleThumbnailError_second videos i Hi) as H2.
    destruct (Hlast _ "2" H2 eq_refl eq_refl) as [Hs [Ho _]]. auto. }
  destruct (CatalogPage.fallbackAttempted img) as [mark|] eqn:Hm.
  - destruct (JS.truthy mark) eqn:Ht.
    + destruct (String.eqb mark "1") eqn:H1.
      * apply String.eqb_eq in H1. subst mark.
        pose proof (handleThumbnailError_second videos img Hm) as H2.
        fold img1 in H2.
        destruct (Hlast img1 "2" H2 eq_refl eq_refl) as [_ [_ H3]].
        fold img2 in H3.
        destruct (Hlast img2 "2" H3 eq_refl eq_refl) as [Hs [Ho _]]. auto.
      * destruct (Hlast img mark Hm Ht H1) as [_ [_ H2]]. fold img1 in H2.
        destruct (Hlast img1 mark H2 Ht H1) as [_ [_ H3]]. fold img2 in H3.
        destruct (Hlast img2 mark H3 Ht H1) as [Hs [Ho _]]. auto.
    + apply Hfrom1. apply handleThumbnailError_first. now rewrite Hm.
  - apply Hfrom1. apply handleThumbnailError_first. now rewrite Hm.
Qed.

Lemma preview_short_pattern (fileId : string) :
  JSMore.isId fileId = true ->
  JS.firstMatch (JS.litThenId "/d/")
    ("https://drive.google.com/file/d/" ++ fileId ++ "/preview") =
  Some fileId.
Proof.
  intros Hid. cbn -[JS.idRun].
  rewrite (idRun_app fileId "/preview" Hid eq_refl). reflexivity.
Qed.

(** X6.  For a record whose [driveUrl] the upload page converted from a
    Google Drive URL with a file id, the first fallback of the catalog asks
    Google Drive for the thumbnail of that same file id: the short pattern
    [/d/] of the catalog and the pattern [/file/d/] of the upload page
    agree on the stored URL. *)
Theorem thumbnail_fallback_same_id (videos : list Catalog.Video)
        (img : CatalogPage.Img) (v : Catalog.Video)
        (videoId url fileId : string) :
  CatalogPage.fallbackAttempted img = None ->
  CatalogPage.card img = Some videoId ->
  find (fun x => String.eqb (Catalog.id x) videoId) videos = Some v ->
  Uploader.isValidGoogleDriveUrl url = true ->
  Uploader.extractGoogleDriveFileId url = Some fileId ->
  Catalog.driveUrl v = Uploader.convertToEmbedUrl url ->
  CatalogPage.src (CatalogPage.handleThumbnailError videos img) =
    UploadPage.driveThumbnail fileId /\
  UploadPage.autoGenerateThumbnail url "" = UploadPage.driveThumbnail fileId.
Proof.
  intros Hm Hcard Hfind Hd Hx Hv.
  pose proof (extractGoogleDriveFileId_Some _ _ Hx) as [Hid _].
  assert (Hc : Uploader.convertToEmbedUrl url =
               "https://drive.google.com/file/d/" ++ fileId ++ "/preview").
  { unfold Uploader.convertToEmbedUrl. rewrite Hd, Hx. reflexivity. }
  split.
  - unfold CatalogPage.handleThumbnailError, CatalogPage.attempt,
      CatalogPage.fallbackFileId.
    rewrite Hm. cbn [CatalogPage.card]. rewrite Hcard, Hfind, Hv, Hc.
    destruct (preview_is_drive fileId Hid) as [Hp _].
    apply isValidGoogleDriveUrl_parts in Hp as [Ht Hi].
    rewrite Ht, Hi. cbn [andb].
    rewrite (preview_short_pattern fileId Hid). reflexivity.
  - unfold UploadPage.autoGenerateThumbnail. rewrite Hd, Hx. reflexivity.
Qed.

Lemma thumbnail_fallback_same_id_witness :
  CatalogPage.src
    (CatalogPage.handleThumbnailError
       [Catalog.mkVideo "v1" "t" "" "" "" (Uploader.convertToEmbedUrl
          "https://drive.google.com/file/d/1A2B3C/view") "" None None]
       (CatalogPage.mkImg None "x.png" true false (Some "v1"))) =
  UploadPage.driveThumbnail "1A2B3C".
Proof.
  refine (proj1 (thumbnail_fallback_same_id _ _
                   (Catalog.mkVideo "v1" "t" "" "" ""
                      (Uploader.convertToEmbedUrl
                         "https://drive.google.com/file/d/1A2B3C/view")
                      "" None None)
                   "v1" "https://drive.google.com/file/d/1A2B3C/view"
                   "1A2B3C" _ _ _ _ _ _)); reflexivity.
Defined.

(* ================================================================== *)
(** * Folders *)
(* ================================================================== *)

Lemma existsb_eqb_In (x : string) (set : list string) :
  existsb (String.eqb x) set = true <-> In x set.
Proof.
  rewrite existsb_exists. split.
  - intros [y [Hy E]]. apply String.eqb_eq in E. now subst.
  - intros Hx. exists x. split; [exact Hx|apply String.eqb_refl].
Qed.

Lemma setAdd_In (x y : string) (set : list string) :
  In x (JSMore.setAdd y set) <-> x = y \/ In x set.
Proof.
  unfold JSMore.setAdd. destruct (existsb (String.eqb y) set) eqn:E.
  - apply existsb_eqb_In in E. split; [tauto|]. intros [->|Hx]; assumption.
  - rewrite in_app_iff. simpl. split.
    + intros [Hx|[<-|[]]]; auto.
    + intros [->|Hx]; auto.
Qed.

Lemma setAdd_NoDup (y : string) (set : list string) :
  NoDup set -> NoDup (JSMore.setAdd y set).
Proof.
  intros Hs. unfold JSMore.setAdd.
  destruct (existsb (String.eqb y) set) eqn:E; [exact Hs|].
  apply NoDup_app; [exact Hs|repeat constructor; intros []|].
  intros x Hx [<-|[]]. apply existsb_eqb_In in Hx. congruence.
Qed.

Lemma collectFolder_fold_In (videos : list Catalog.Video)
      (set : list string) (f : string) :
  In f (fold_left CatalogPage.collectFolder videos set) <->
  In f set \/
  (f <> "" /\ exists v, In v videos /\ Catalog.folder v = Some f).
Proof.
  revert set. induction videos as [|v videos IH]; intros set; simpl.
  - split; [tauto|]. intros [Hf|[_ [v [[] _]]]]. exact Hf.
  - rewrite IH. unfold CatalogPage.collectFolder.
    destruct (Catalog.folder v) as [g|] eqn:Eg.
    + destruct (JS.truthy g) eqn:Et.
      * rewrite setAdd_In. apply truthy_true in Et. split.
        -- intros [[->|Hf]|[Hne [w [Hw Ew]]]]; eauto 6.
        -- intros [Hf|[Hne [w [[<-|Hw] Ew]]]]; eauto 6.
           left. left. congruence.
      * apply truthy_false in Et. subst g. split.
        -- intros [Hf|[Hne [w [Hw Ew]]]]; eauto 6.
        -- intros [Hf|[Hne [w [[<-|Hw] Ew]]]]; eauto 6. congruence.
    + split.
      * intros [Hf|[Hne [w [Hw Ew]]]]; eauto 6.
      * intros [Hf|[Hne [w [[<-|Hw] Ew]]]]; eauto 6. congruence.
Qed.

Lemma collectFolder_fold_NoDup (videos : list Catalog.Video)
      (set : list string) :
  NoDup set -> NoDup (fold_left CatalogPage.collectFolder videos set).
Proof.
  revert set. induction videos as [|v videos IH]; intros set Hs; simpl;
    [exact Hs|].
  apply IH. unfold CatalogPage.collectFolder.
  destruct (Catalog.folder v) as [g|]; [|exact Hs].
  destruct (JS.truthy g); [apply setAdd_NoDup, Hs|exact Hs].
Qed.

#[local] Instance defaultCompare_trans :
  Transitive (JS.before JSMore.defaultCompare).
Proof. intros a b c. apply codeUnitOrder_trans. Qed.

(** X7.  [extractFolders] lists exactly the folder names that are not
    empty and occur on some record, each once, in ascending code unit
    order. *)
Theorem extractFolders_lists_folders (videos : list Catalog.Video) :
  (forall f,
      In f (CatalogPage.extractFolders videos) <->
      f <> "" /\ exists v, In v videos /\ Catalog.folder v = Some f) /\
  NoDup (CatalogPage.extractFolders videos) /\
  StronglySorted (JS.before JSMore.defaultCompare)
                 (CatalogPage.extractFolders videos).
Proof.
  unfold CatalogPage.extractFolders. split; [|split].
  - intros f. rewrite sort_in, collectFolder_fold_In. simpl. tauto.
  - eapply Permutation_NoDup; [apply sort_perm|].
    apply collectFolder_fold_NoDup. constructor.
  - apply Sorted_StronglySorted; [exact defaultCompare_trans|].
    apply sort_sorted. intros a b Hab.
    apply codeUnitOrder_mirror in Hab. unfold JSMore.defaultCompare. lia.
Qed.

(** X8.  When the active folder is a name that [extractFolders] lists
    (other than ["all"]) and the search box is empty, the pipeline does not
    come out empty: the records it shows are the stored records of that
    folder, and there is one at least.  This is said of the value that
    [currentFolder] holds; the dropdown writes the names into its markup
    as they are, and what its [change] handler reads back for a name is
    not part of the statement. *)
Theorem listed_folder_shows_records (H : Host) (videos : list Catalog.Video)
        (f sortKey : string) :
  In f (CatalogPage.extractFolders videos) ->
  f <> "all" ->
  let shown := Catalog.applyPipeline videos "" f sortKey in
  shown <> [] /\
  (forall v, In v shown <-> In v videos /\ Catalog.folder v = Some f).
Proof.
  intros Hf Hall shown.
  apply (proj1 (extractFolders_lists_folders videos)) in Hf
    as [_ [v0 [Hv0 Ef]]].
  assert (Hshown : forall v,
             In v shown <-> In v videos /\ Catalog.folder v = Some f).
  { intros v. unfold shown, Catalog.applyPipeline.
    change (JS.truthy "") with false. cbv iota.
    apply String.eqb_neq in Hall. rewrite Hall. cbn [negb].
    split.
    - intros Hin.
      eapply Permutation_in in Hin;
        [|apply Permutation_sym, sortVideos_perm].
      apply filter_In in Hin as [Hin Hk]. split; [exact Hin|].
      unfold Catalog.folderIs in Hk.
      destruct (Catalog.folder v) as [g|]; [|discriminate].
      apply String.eqb_eq in Hk. now subst.
    - intros [Hin Eg].
      eapply Permutation_in; [apply sortVideos_perm|].
      apply filter_In. split; [exact Hin|].
      unfold Catalog.folderIs. rewrite Eg. apply String.eqb_refl. }
  split; [|exact Hshown].
  intros Hnil. assert (Hin : In v0 shown) by (apply Hshown; auto).
  rewrite Hnil in Hin. exact Hin.
Qed.

Lemma listed_folder_shows_records_witness :
  Catalog.applyPipeline (H := Sample.host) Sample.document "" "Pets" "newest"
  <> [].
Proof.
  refine (proj1 (listed_folder_shows_records Sample.host Sample.document
                   "Pets" "newest" _ _)).
  - vm_compute. auto.
  - discriminate.
Defined.

(* ================================================================== *)
(** * Search suggestions *)
(* ================================================================== *)

Lemma splitOn_head (sep : ascii) (s : string) :
  exists w ws r, JSMore.splitOn sep s = w :: ws /\ s = w ++ r.
Proof.
  induction s as [|c s [w [ws [r [E Hs]]]]]; simpl.
  - exists "", [], "". split; reflexivity.
  - destruct (Ascii.eqb c sep).
    + exists "", (JSMore.splitOn sep s), (String c s). split; reflexivity.
    + rewrite E. exists (String c w), ws, r. split; [reflexivity|].
      simpl. now rewrite <- Hs.
Qed.

(** Every piece of a split is a part of the string. *)
Lemma splitOn_includes (sep : ascii) (s w : string) :
  In w (JSMore.splitOn sep s) -> JS.includes s w = true.
Proof.
  revert w. induction s as [|c s IH]; intros w; cbn [JSMore.splitOn].
  - intros [<-|[]]. reflexivity.
  - destruct (Ascii.eqb c sep).
    + intros [<-|Hw]; [apply includes_empty|].
      apply (includes_right (String c "") s), IH, Hw.
    + destruct (splitOn_head sep s) as [w0 [ws [r [E Hs]]]].
      rewrite E in *. intros [<-|Hw].
      * apply includes_iff. exists "", r. simpl. now rewrite <- Hs.
      * apply (includes_right (String c "") s), IH. right. exact Hw.
Qed.

Lemma addWords_fold_In (n : nat) (words set : list string) (x : string) :
  In x (fold_left
          (fun set word =>
             if Nat.ltb n (String.length word)
             then JSMore.setAdd (JS.toLowerCase word) set
             else set) words set) ->
  In x set \/
  exists w, In w words /\ (n < String.length w)%nat /\ x = JS.toLowerCase w.
Proof.
  revert set. induction words as [|w words IH]; intros set; simpl;
    [tauto|].
  intros Hx. apply IH in Hx as [Hx|[w' [Hw' [Hn E]]]]; [|eauto 6].
  destruct (Nat.ltb_spec n (String.length w)); [|tauto].
  apply setAdd_In in Hx as [->|Hx]; eauto 6.
Qed.

Lemma addWords_fold_NoDup (n : nat) (words set : list string) :
  NoDup set ->
  NoDup (fold_left
           (fun set word =>
              if Nat.ltb n (String.length word)
              then JSMore.setAdd (JS.toLowerCase word) set
              else set) words set).
Proof.
  revert set. induction words as [|w words IH]; intros set Hs; simpl;
    [exact Hs|].
  apply IH. destruct (Nat.ltb n (String.length w));
    [apply setAdd_NoDup, Hs|exact Hs].
Qed.

Lemma suggestVideo_In (set : list string) (v : Catalog.Video) (x : string) :
  In x (CatalogPage.suggestVideo set v) ->
  In x set \/ CatalogPage.suggestedBy x v.
Proof.
  unfold CatalogPage.suggestVideo, CatalogPage.addWords.
  intros Hx.
  assert (Hwords :
            In x (fold_left
                    (fun set word =>
                       if Nat.ltb 3 (String.length word)
                       then JSMore.setAdd (JS.toLowerCase word) set
                       else set)
                    (JSMore.splitOn " " (Catalog.description v))
                    (fold_left
                       (fun set word =>
                          if Nat.ltb 2 (String.length word)
                          then JSMore.setAdd (JS.toLowerCase word) set
                          else set)
                       (JSMore.splitOn " " (Catalog.title v)) set)) ->
            In x set \/ CatalogPage.suggestedBy x v).
  { intros Hin. unfold CatalogPage.suggestedBy.
    apply addWords_fold_In in Hin as [Hin|Hin].
    - apply addWords_fold_In in Hin as [Hin|Hin]; [tauto|].
      right. left. exact Hin.
    - right. right. left. exact Hin. }
  destruct (Catalog.folder v) as [f|] eqn:Ef; [|exact (Hwords Hx)].
  destruct (JS.truthy f) eqn:Et; [|exact (Hwords Hx)].
  apply setAdd_In in Hx as [->|Hx]; [|exact (Hwords Hx)].
  right. unfold CatalogPage.suggestedBy. right. right.
  exists f. apply truthy_true in Et. auto.
Qed.

Lemma suggestVideo_NoDup (set : list string) (v : Catalog.Video) :
  NoDup set -> NoDup (CatalogPage.suggestVideo set v).
Proof.
  intros Hs. unfold CatalogPage.suggestVideo, CatalogPage.addWords.
  assert (Hw := addWords_fold_NoDup 3
                  (JSMore.splitOn " " (Catalog.description v)) _
                  (addWords_fold_NoDup 2
                     (JSMore.splitOn " " (Catalog.title v)) set Hs)).
  destruct (Catalog.folder v) as [f|]; [|exact Hw].
  destruct (JS.truthy f); [apply setAdd_NoDup, Hw|exact Hw].
Qed.

Lemma allSuggestions_In (videos : list Catalog.Video) (set : list string)
      (x : string) :
  In x (fold_left CatalogPage.suggestVideo videos set) ->
  In x set \/ exists v, In v videos /\ CatalogPage.suggestedBy x v.
Proof.
  revert set. induction videos as [|v videos IH]; intros set; simpl;
    [tauto|].
  intros Hx. apply IH in Hx as [Hx|[w [Hw Hs]]]; [|eauto 6].
  apply suggestVideo_In in Hx as [Hx|Hx]; eauto 6.
Qed.

Lemma allSuggestions_NoDup (videos : list Catalog.Video) (set : list string) :
  NoDup set -> NoDup (fold_left CatalogPage.suggestVideo videos set).
Proof.
  revert set. induction videos as [|v videos IH]; intros set Hs; simpl;
    [exact Hs|].
  apply IH, suggestVideo_NoDup, Hs.
Qed.

Lemma firstn_incl {A : Type} (n : nat) (l : list A) (x : A) :
  In x (firstn n l) -> In x l.
Proof.
  intros Hx. rewrite <- (firstn_skipn n l). apply in_or_app. now left.
Qed.

Lemma generateSearchSuggestions_In (videos : list Catalog.Video)
      (x : string) :
  In x (CatalogPage.generateSearchSuggestions videos) ->
  exists v, In v videos /\ CatalogPage.suggestedBy x v.
Proof.
  unfold CatalogPage.generateSearchSuggestions, CatalogPage.allSuggestions.
  intros Hx. apply firstn_incl, allSuggestions_In in Hx as [[]|Hx]. exact Hx.
Qed.

Lemma suggestedBy_shape (x : string) (v : Catalog.Video) :
  CatalogPage.suggestedBy x v -> x <> "" /\ JS.toLowerCase x = x.
Proof.
  intros [[w [_ [Hn ->]]]|[[w [_ [Hn ->]]]|[f [_ [Hf ->]]]]];
    (split; [|apply toLowerCase_idempotent]).
  - intros E. apply (f_equal String.length) in E.
    rewrite toLowerCase_length in E. simpl in E. lia.
  - intros E. apply (f_equal String.length) in E.
    rewrite toLowerCase_length in E. simpl in E. lia.
  - destruct f; [congruence|discriminate].
Qed.

(** X9.  [generateSearchSuggestions] gives at most 10 suggestions, no two
    alike, none empty, all in lowercase, and each one the lowercased form
    of a title word of more than 2 code units, of a description word of
    more than 3, or of the folder of a stored record. *)
Theorem suggestions_shape (videos : list Catalog.Video) :
  (List.length (CatalogPage.generateSearchSuggestions videos) <= 10)%nat /\
  NoDup (CatalogPage.generateSearchSuggestions videos) /\
  (forall x,
      In x (CatalogPage.generateSearchSuggestions videos) ->
      x <> "" /\ JS.toLowerCase x = x /\
      exists v, In v videos /\ CatalogPage.suggestedBy x v).
Proof.
  split; [|split].
  - unfold CatalogPage.generateSearchSuggestions. apply firstn_le_length.
  - unfold CatalogPage.generateSearchSuggestions, CatalogPage.allSuggestions.
    assert (Hn := allSuggestions_NoDup videos [] (NoDup_nil _)).
    rewrite <- (firstn_skipn 10) in Hn.
    apply NoDup_app_remove_r in Hn. exact Hn.
  - intros x Hx. apply generateSearchSuggestions_In in Hx as [v [Hv Hs]].
    destruct (suggestedBy_shape x v Hs) as [Hne Hl]. eauto 6.
Qed.

(** A record matches the suggestions it gives rise to, as the search
    normalises them. *)
Lemma suggestedBy_matches (x : string) (v : Catalog.Video) :
  CatalogPage.suggestedBy x v ->
  Spec.matches (JS.trim (JS.toLowerCase x)) v = true.
Proof.
  intros Hs. destruct (suggestedBy_shape x v Hs) as [_ Hl]. rewrite Hl.
  unfold Spec.matches. rewrite !orb_true_iff.
  destruct Hs as [[w [Hw [_ ->]]]|[[w [Hw [_ ->]]]|[f [Ef [_ ->]]]]].
  - left. left. eapply includes_trans; [|apply includes_trim].
    apply includes_toLowerCase, splitOn_includes with (sep := " "%char), Hw.
  - left. right. eapply includes_trans; [|apply includes_trim].
    apply includes_toLowerCase, splitOn_includes with (sep := " "%char), Hw.
  - right. rewrite Ef. apply includes_trim.
Qed.

(** X10.  With the active folder ["all"], searching for a suggestion that
    was generated from the stored records always shows a record. *)
Theorem suggestion_finds_a_record (H : Host) (st : Catalog.State)
        (x : string) :
  In x (CatalogPage.generateSearchSuggestions (Catalog.videos st)) ->
  Catalog.currentFolder st = "all" ->
  Catalog.filteredVideos (Catalog.onSearchInput x st) <> [].
Proof.
  intros Hx Hall.
  apply generateSearchSuggestions_In in Hx as [v [Hv Hs]].
  apply suggestedBy_matches in Hs.
  unfold Catalog.onSearchInput.
  rewrite performSearch_filteredVideos, applyPipeline_stages.
  cbn [Catalog.currentFolder Catalog.currentSort Catalog.boxTerm
       Catalog.searchInput].
  rewrite Hall. unfold Spec.folderStage.
  cbn [String.eqb Ascii.eqb Bool.eqb].
  set (term := JS.trim (JS.toLowerCase x)) in *.
  assert (Hin : exists v',
             In v' (Catalog.videos
                      (Catalog.rankByRelevance x
                         (Catalog.mkState (Catalog.videos st)
                            (Catalog.filteredVideos st)
                            (Catalog.currentSort st) "all" (Some x)))) /\
             Spec.matches term v' = true).
  { unfold Catalog.rankByRelevance. fold term.
    destruct (negb (JS.truthy term)); cbn.
    - exists v. auto.
    - exists (Catalog.scoreVideo term v). split; [|exact Hs].
      apply in_map, Hv. }
  destruct Hin as [v' [Hin Hm]]. intros Hnil.
  assert (Hshown : In v'
            (Catalog.sortVideos (Catalog.currentSort st)
               (Spec.textStage term
                  (Catalog.videos
                     (Catalog.rankByRelevance x
                        (Catalog.mkState (Catalog.videos st)
                           (Catalog.filteredVideos st)
                           (Catalog.currentSort st) "all" (Some x))))))).
  { eapply Permutation_in; [apply sortVideos_perm|].
    apply filter_In. auto. }
  rewrite Hnil in Hshown. exact Hshown.
Qed.

Lemma suggestion_finds_a_record_witness :
  Catalog.filteredVideos
    (Catalog.onSearchInput (H := Sample.host) "appears" Sample.loaded) <> [].
Proof.
  refine (suggestion_finds_a_record Sample.host Sample.loaded "appears" _ _).
  - vm_compute. auto 10.
  - reflexivity.
Defined.

(* ================================================================== *)
(** * Dates on the cards *)
(* ================================================================== *)

Lemma ceilDiv_spec (a b : Z) :
  0 < b ->
  b * (JSMore.ceilDiv a b - 1) < a <= b * JSMore.ceilDiv a b.
Proof.
  intros Hb. unfold JSMore.ceilDiv.
  pose proof (Z.div_mod (a + b - 1) b) as Hdm.
  pose proof (Z.mod_pos_bound (a + b - 1) b Hb) as Hm.
  nia.
Qed.

(** X11.  What [formatDate] prints goes by the distance between the date
    and now, in either direction: nothing at all apart is "0 days ago"; up
    to a day is "Yesterday"; then 2 to 6 days, 1 to 5 weeks, 1 to 13
    months; from 365 days on, and for every invalid date, the date in the
    browser's format. *)
Theorem formatDate_labels (H : Host) (toLocaleDateString : option Z -> string)
        (now : Z) (dateString : string) :
  let shown := CatalogPage.formatDate toLocaleDateString now dateString in
  let day := 86400000 in
  match dateTime dateString with
  | None => shown = toLocaleDateString None
  | Some t =>
      let d := Z.abs (now - t) in
      (d = 0 -> shown = "0 days ago") /\
      (0 < d <= day -> shown = "Yesterday") /\
      (day < d <= 6 * day ->
       exists n, 2 <= n <= 6 /\ shown = JSMore.decimal n ++ " days ago") /\
      (6 * day < d <= 29 * day ->
       exists n, 1 <= n <= 5 /\ shown = JSMore.decimal n ++ " weeks ago") /\
      (29 * day < d <= 364 * day ->
       exists n, 1 <= n <= 13 /\ shown = JSMore.decimal n ++ " months ago") /\
      (364 * day < d -> shown = toLocaleDateString (Some t)) /\
      shown = CatalogPage.formatDate toLocaleDateString (2 * t - now)
                                     dateString
  end.
Proof.
  cbv zeta. unfold CatalogPage.formatDate.
  destruct (dateTime dateString) as [t|]; [|reflexivity].
  replace (Z.abs (2 * t - now - t)) with (Z.abs (now - t)) by lia.
  set (d := Z.abs (now - t)).
  pose proof (ceilDiv_spec d (1000 * 60 * 60 * 24) eq_refl) as Hq.
  set (q := JSMore.ceilDiv d (1000 * 60 * 60 * 24)) in *.
  pose proof (ceilDiv_spec q 7 eq_refl) as Hw.
  pose proof (ceilDiv_spec q 30 eq_refl) as Hm.
  set (w := JSMore.ceilDiv q 7) in *.
  set (m := JSMore.ceilDiv q 30) in *.
  assert (Hd : 0 <= d) by apply Z.abs_nonneg.
  clearbody q w m d.
  destruct (Z.eqb_spec q 1) as [E1|E1];
    [|destruct (Z.ltb_spec q 7) as [E7|E7];
      [|destruct (Z.ltb_spec q 30) as [E30|E30];
        [|destruct (Z.ltb_spec q 365) as [E365|E365]]]].
  - repeat split; intros; try reflexivity; exfalso; lia.
  - repeat split; intros; try reflexivity; try (exfalso; lia).
    + replace q with 0 by lia. reflexivity.
    + exists q. split; [lia|reflexivity].
  - repeat split; intros; try reflexivity; try (exfalso; lia).
    exists w. split; [lia|reflexivity].
  - repeat split; intros; try reflexivity; try (exfalso; lia).
    exists m. split; [lia|reflexivity].
  - repeat split; intros; try reflexivity; exfalso; lia.
Qed.

Lemma formatDate_labels_witness :
  CatalogPage.formatDate (H := Sample.host) (fun _ => "1/1/2024")
    (1704067200000 + 1) "2024-01-01" = "Yesterday".
Proof.
  refine (proj1 (proj2 (formatDate_labels Sample.host
                          (fun _ => "1/1/2024") (1704067200000 + 1)
                          "2024-01-01")) _).
  vm_compute. split; [reflexivity|discriminate].
Defined.

(* ================================================================== *)
(** * From the upload form to the search box *)
(* ================================================================== *)

Lemma trimmedValue_fixed (element : option string) :
  JS.trim (Uploader.trimmedValue element) = Uploader.trimmedValue element.
Proof.
  destruct element as [value|]; [apply trim_idempotent|reflexivity].
Qed.

(** X12.  [getFormData] hands over the URL, the title, the description and
    the thumbnail without white space at their ends (trimming them again
    changes nothing), and the name of a new folder likewise. *)
Theorem getFormData_trimmed (f : Uploader.Form) :
  let data := Uploader.getFormData f in
  JS.trim (Uploader.driveUrl data) = Uploader.driveUrl data /\
  JS.trim (Uploader.title data) = Uploader.title data /\
  JS.trim (Uploader.description data) = Uploader.description data /\
  JS.trim (Uploader.thumbnailUrl data) = Uploader.thumbnailUrl data /\
  (Uploader.folderSelect f = Some "__new__" ->
   JS.trim (Uploader.folder data) = Uploader.folder data).
Proof.
  cbn. repeat split; try apply trimmedValue_fixed.
  intros ->. cbn. apply trimmedValue_fixed.
Qed.

Lemma getFormData_trimmed_witness :
  JS.trim
    (Uploader.folder
       (Uploader.getFormData
          (Uploader.mkForm None None None None (Some "__new__")
                           (Some "  Trips  ")))) =
  Uploader.folder
    (Uploader.getFormData
       (Uploader.mkForm None None None None (Some "__new__")
                        (Some "  Trips  "))).
Proof.
  refine (proj2 (proj2 (proj2 (proj2
            (getFormData_trimmed
               (Uploader.mkForm None None None None (Some "__new__")
                                (Some "  Trips  ")))))) _).
  reflexivity.
Defined.



(** X14.  A form that [validateForm] accepts passes [validateField] on its
    URL, title and thumbnail fields: the check on leaving a field never
    flags what the check on submitting lets through. *)
Theorem accepted_form_passes_field_checks (H : Host) (f : Uploader.Form)
        (url t th : string) :
  Uploader.accepts f = true ->
  Uploader.driveUrlInput f = Some url ->
  Uploader.videoTitleInput f = Some t ->
  Uploader.thumbnailUrlInput f = Some th ->
  UploadPage.validateField "driveUrl" url = true /\
  UploadPage.validateField "videoTitle" t = true /\
  UploadPage.validateField "thumbnailUrl" th = true.
Proof.
  intros Hok Hu Ht Hth. unfold Uploader.accepts in Hok.
  rewrite validateForm_checks in Hok.
  rewrite !andb_true_iff in Hok.
  destruct Hok as [[[[[_ Hurl] [[_ Hlen] _]] _] _] Hthumb].
  assert (Eu : Uploader.driveUrl (Uploader.getFormData f) = JS.trim url)
    by (cbn; rewrite Hu; reflexivity).
  assert (Et : Uploader.title (Uploader.getFormData f) = JS.trim t)
    by (cbn; rewrite Ht; reflexivity).
  assert (Eh : Uploader.thumbnailUrl (Uploader.getFormData f) = JS.trim th)
    by (cbn; rewrite Hth; reflexivity).
  rewrite Eu in Hurl. rewrite Et in Hlen. rewrite Eh in Hthumb.
  unfold UploadPage.validateField. cbn [String.eqb Ascii.eqb Bool.eqb].
  apply negb_true_iff in Hlen. rewrite Hurl, Hthumb, Hlen.
  rewrite !andb_false_r. auto.
Qed.

Lemma accepted_form_passes_field_checks_witness :
  UploadPage.validateField (H := Sample.host) "videoTitle" "abc" = true.
Proof.
  refine (proj1 (proj2 (accepted_form_passes_field_checks Sample.host
                          (Sample.form "abc" "")
                          "https://example.com/movie.mp4" "abc" "" _ _ _ _)));
    reflexivity.
Defined.

(* ================================================================== *)
(** * The page as a state machine *)
(* ================================================================== *)

Section PageFacts.
Context {H : Host}.











End PageFacts.







(** A reload is the exception: with a folder chosen it shows all the
    records again while the folder stays chosen. *)
Example reload_out_of_sync :
  let p := CatalogPage.handle (H := Sample.host) (CatalogPage.FolderChange "Pets")
             (CatalogPage.start (H := Sample.host) (Some Sample.document)) in
  let p' := CatalogPage.handle (H := Sample.host)
              (CatalogPage.Reload (Some Sample.document)) p in
  Catalog.currentFolder (CatalogPage.catalog p') = "Pets" /\
  Catalog.filteredVideos (CatalogPage.catalog p') =
    [Sample.dogs; Sample.cat] /\
  ~ CatalogPage.inSync (H := Sample.host) (CatalogPage.catalog p').
Proof.
  cbv zeta. split; [reflexivity|]. split; [vm_compute; reflexivity|].
  unfold CatalogPage.inSync. vm_compute. discriminate.
Qed.

(* ================================================================== *)
(** * Thumbnails that the upload page fills in *)
(* ================================================================== *)

Lemma driveThumbnail_image {H : Host} (fileId : string) :
  urlParses (UploadPage.driveThumbnail fileId) = true ->
  Uploader.isValidImageUrl (UploadPage.driveThumbnail fileId) = true.
Proof.
  intros Hp. unfold Uploader.isValidImageUrl. rewrite Hp.
  assert (E : JS.includes (UploadPage.driveThumbnail fileId) "thumbnail"
              = true).
  { apply includes_iff.
    exists "https://drive.google.com/", ("?id=" ++ fileId ++ "&sz=w400-h300").
    reflexivity. }
  rewrite E, orb_true_r. reflexivity.
Qed.

Lemma youTubeThumbnail_image {H : Host} (videoId : string) :
  urlParses (UploadPage.youTubeThumbnail videoId) = true ->
  Uploader.isValidImageUrl (UploadPage.youTubeThumbnail videoId) = true.
Proof.
  intros Hp. unfold Uploader.isValidImageUrl. rewrite Hp.
  assert (E : JS.includes
                (JS.toLowerCase (UploadPage.youTubeThumbnail videoId))
                ".jpg" = true).
  { unfold UploadPage.youTubeThumbnail. rewrite !toLowerCase_app.
    apply includes_iff.
    exists (JS.toLowerCase "https://img.youtube.com/vi/" ++
            JS.toLowerCase videoId ++ "/maxresdefault"), "".
    rewrite !append_assoc. reflexivity. }
  unfold JS.includesAny, Uploader.imageExtensions. cbn [existsb].
  rewrite E. reflexivity.
Qed.

(** X18.  The thumbnail that the upload page fills in on a change of the
    URL never replaces one that is there; into an empty field it puts
    nothing, or the Google Drive or YouTube thumbnail of an id extracted
    from the URL, and such a thumbnail passes the image check of
    [validateForm] whenever it parses as a URL. *)
Theorem auto_thumbnail (H : Host) (url thumbnail : string) :
  (thumbnail <> "" -> UploadPage.onUrlChange url thumbnail = thumbnail) /\
  (let filled := UploadPage.onUrlChange url "" in
   filled = "" \/
   ((exists fileId,
        JSMore.isId fileId = true /\
        (filled = UploadPage.driveThumbnail fileId \/
         filled = UploadPage.youTubeThumbnail fileId)) /\
    (urlParses filled = true -> Uploader.isValidImageUrl filled = true))).
Proof.
  split.
  - intros Hne. apply truthy_true in Hne.
    unfold UploadPage.onUrlChange, UploadPage.autoGenerateYouTubeThumbnail,
      UploadPage.autoGenerateThumbnail.
    rewrite Hne, orb_true_r, Hne. reflexivity.
  - cbv zeta.
    unfold UploadPage.onUrlChange, UploadPage.autoGenerateThumbnail.
    change (JS.truthy "") with false. rewrite orb_false_r.
    destruct (Uploader.isValidGoogleDriveUrl url) eqn:Hd; cbn [negb].
    + destruct (Uploader.extractGoogleDriveFileId url) as [fileId|] eqn:Hx.
      * right. apply extractGoogleDriveFileId_Some in Hx as [Hid _].
        unfold UploadPage.autoGenerateYouTubeThumbnail.
        change (JS.truthy (UploadPage.driveThumbnail fileId)) with true.
        cbv iota. split; [eauto|apply driveThumbnail_image].
      * unfold UploadPage.autoGenerateYouTubeThumbnail.
        change (JS.truthy "") with false. cbv iota.
        destruct (Uploader.isValidYouTubeUrl url); [|now left].
        destruct (Uploader.extractYouTubeVideoId url) as [videoId|] eqn:Hy;
          [|now left].
        right. apply extractYouTubeVideoId_Some in Hy as [Hid _].
        split; [eauto|apply youTubeThumbnail_image].
    + unfold UploadPage.autoGenerateYouTubeThumbnail.
      change (JS.truthy "") with false. cbv iota.
      destruct (Uploader.isValidYouTubeUrl url); [|now left].
      destruct (Uploader.extractYouTubeVideoId url) as [videoId|] eqn:Hy;
        [|now left].
      right. apply extractYouTubeVideoId_Some in Hy as [Hid _].
      split; [eauto|apply youTubeThumbnail_image].
Qed.

Lemma auto_thumbnail_witness :
  UploadPage.onUrlChange "https://youtu.be/dQw4w9WgXcQ" "mine.png" =
  "mine.png".
Proof.
  refine (proj1 (auto_thumbnail Sample.host "https://youtu.be/dQw4w9WgXcQ"
                   "mine.png") _).
  discriminate.
Defined.

(* ================================================================== *)
(** * Share links *)
(* ================================================================== *)

Lemma idRun_stops (run rest : string) :
  JSMore.isId run = true -> JSMore.stops rest = true ->
  JS.idRun (run ++ rest) = Some run.
Proof.
  intros Hid Hs. apply idRun_app; [exact Hid|].
  destruct rest as [|c rest]; [exact I|].
  apply negb_true_iff, Hs.
Qed.

Lemma isIdChar_not_terminator (c : ascii) :
  JS.isIdChar c = true -> JS.isLineTerminator c = false.
Proof. destruct c as [[] [] [] [] [] [] [] []]; intros E; try reflexivity;
         discriminate E. Qed.

Lemma isId_dotPlus (run rest : string) :
  JSMore.isId run = true -> JS.dotPlus (run ++ rest) = true.
Proof.
  unfold JSMore.isId. destruct run as [|c run]; [discriminate|].
  cbn. intros E. apply andb_prop in E as [E _].
  now rewrite (isIdChar_not_terminator c E).
Qed.

(** X19.  Share links convert by their id, whatever follows the id: a
    Google Drive link [https://drive.google.com/file/d/ID...] becomes the
    preview URL of [ID]; a [https://youtu.be/ID...] or
    [https://www.youtube.com/watch?v=ID...] link becomes the embed URL of
    [ID], unless what follows makes it a Google Drive URL, which goes
    first. *)
Theorem share_links_convert (fileId rest : string) :
  JSMore.isId fileId = true ->
  JSMore.stops rest = true ->
  Uploader.convertToEmbedUrl
    ("https://drive.google.com/file/d/" ++ fileId ++ rest) =
    "https://drive.google.com/file/d/" ++ fileId ++ "/preview" /\
  (Uploader.isValidGoogleDriveUrl ("https://youtu.be/" ++ fileId ++ rest)
   = false ->
   Uploader.convertToEmbedUrl ("https://youtu.be/" ++ fileId ++ rest) =
   "https://www.youtube.com/embed/" ++ fileId) /\
  (Uploader.isValidGoogleDriveUrl
     ("https://www.youtube.com/watch?v=" ++ fileId ++ rest) = false ->
   Uploader.convertToEmbedUrl
     ("https://www.youtube.com/watch?v=" ++ fileId ++ rest) =
   "https://www.youtube.com/embed/" ++ fileId).
Proof.
  intros Hid Hs. pose proof (idRun_stops fileId rest Hid Hs) as Hrun.
  pose proof (isId_dotPlus fileId rest Hid) as Hdot.
  split; [|split].
  - unfold Uploader.convertToEmbedUrl.
    assert (Hd : Uploader.isValidGoogleDriveUrl
                   ("https://drive.google.com/file/d/" ++ fileId ++ rest)
                 = true).
    { unfold Uploader.isValidGoogleDriveUrl.
      assert (E1 : JS.includes
                     ("https://drive.google.com/file/d/" ++ fileId ++ rest)
                     "drive.google.com" = true).
      { apply includes_iff.
        exists "https://", ("/file/d/" ++ fileId ++ rest). reflexivity. }
      assert (E2 : JS.includes
                     ("https://drive.google.com/file/d/" ++ fileId ++ rest)
                     "/file/d/" = true).
      { apply includes_iff.
        exists "https://drive.google.com", (fileId ++ rest). reflexivity. }
      rewrite E1, E2. reflexivity. }
    rewrite Hd. unfold Uploader.extractGoogleDriveFileId.
    cbn -[JS.idRun]. rewrite Hrun. reflexivity.
  - intros Hd. unfold Uploader.convertToEmbedUrl. rewrite Hd.
    assert (Hy : Uploader.isValidYouTubeUrl
                   ("https://youtu.be/" ++ fileId ++ rest) = true).
    { unfold Uploader.isValidYouTubeUrl. cbn -[JS.dotPlus].
      rewrite Hdot. reflexivity. }
    rewrite Hy. unfold Uploader.extractYouTubeVideoId.
    cbn -[JS.idRun]. rewrite Hrun. reflexivity.
  - intros Hd. unfold Uploader.convertToEmbedUrl. rewrite Hd.
    assert (Hy : Uploader.isValidYouTubeUrl
                   ("https://www.youtube.com/watch?v=" ++ fileId ++ rest)
                 = true) by reflexivity.
    rewrite Hy. unfold Uploader.extractYouTubeVideoId.
    cbn -[JS.idRun]. rewrite Hrun. reflexivity.
Qed.

Lemma share_links_convert_witness :
  Uploader.convertToEmbedUrl
    ("https://drive.google.com/file/d/" ++ "1A2B3C" ++ "/view?usp=sharing") =
  "https://drive.google.com/file/d/" ++ "1A2B3C" ++ "/preview".
Proof.
  exact (proj1 (share_links_convert "1A2B3C" "/view?usp=sharing"
                  eq_refl eq_refl)).
Defined.

(** What follows the id can make a YouTube link a Google Drive URL. *)
Example share_link_taken_for_drive :
  Uploader.convertToEmbedUrl
    "https://youtu.be/abc?x=drive.google.com/file/d/zzz" =
  "https://drive.google.com/file/d/zzz/preview".
Proof. vm_compute. reflexivity. Qed.

(* ================================================================== *)
(** * The suggestions under the search box *)
(* ================================================================== *)

Lemma length_append (a b : string) :
  String.length (a ++ b) = (String.length a + String.length b)%nat.
Proof. induction a as [|c a IH]; simpl; [reflexivity|]. now rewrite IH. Qed.

(** X20.  Under the search box at most five suggestions are listed, all
    taken from the stored suggestions; each contains the lowercased text
    of the box and is longer than it, so what is typed is never offered
    again. *)
Theorem listed_suggestions_extend (searchSuggestions : list string)
        (value : string) :
  let listed := CatalogPage.matchingSuggestions searchSuggestions value in
  (List.length listed <= 5)%nat /\
  (forall x,
      In x listed ->
      In x searchSuggestions /\
      JS.includes x (JS.toLowerCase value) = true /\
      (String.length value < String.length x)%nat).
Proof.
  cbv zeta. unfold CatalogPage.matchingSuggestions. split.
  - apply firstn_le_length.
  - intros x Hx. apply firstn_incl, filter_In in Hx as [Hin Hk].
    apply andb_prop in Hk as [Hi Hne].
    split; [exact Hin|]. split; [exact Hi|].
    apply negb_true_iff, String.eqb_neq in Hne.
    rewrite <- (toLowerCase_length value).
    apply includes_iff in Hi as [a [b ->]].
    rewrite !length_append.
    destruct a as [|c a]; [|simpl; lia].
    destruct b as [|c b]; [|simpl; lia].
    exfalso. apply Hne. simpl. apply append_nil_r.
Qed.

Lemma listed_suggestions_extend_witness :
  (String.length "ca" < String.length "cats")%nat.
Proof.
  refine (proj2 (proj2 (proj2 (listed_suggestions_extend
                                 ["cats"; "dogs"] "Ca") "cats" _))).
  vm_compute. auto.
Defined.

Lemma suggestions_shape_witness :
  "appears" <> "" /\ JS.toLowerCase "appears" = "appears" /\
  exists v, In v Sample.document /\ CatalogPage.suggestedBy "appears" v.
Proof.
  refine (proj2 (proj2 (suggestions_shape Sample.document)) "appears" _).
  vm_compute. auto 10.
Defined.
